(** * attrs_converter: the [attrs] domain translator of [attrs_parser.py]

    A shallow embedding of [src/attrs_parser.py]: the Python values that
    [ast.literal_eval] hands to the translator, their [repr] and [str], the
    operator table, the stack machine of
    [AttrsParser.__convert_prefix_to_python_expression], the two [re.sub]
    passes that protect and unprotect the [%(...)d] placeholders, and the
    four file passes of [AttrsParser.process_xml]. *)

From Stdlib Require Import ZArith String Ascii List Bool Lia DecimalString.
From stdpp Require Import gmap strings.
From Equations Require Import Equations.
Import ListNotations.

Open Scope string_scope.
Open Scope list_scope.

(** ** Python values *)

Module Py.

(** The literals that a domain can hold.  A [str] is a sequence of code
    points; [ascii] stands for the code points 0..255.  Floats, bytes, sets
    and dicts are not domain values and are left out. *)
#[warnings="-register-all"]
Inductive pyval : Type :=
| PNone
| PBool (b : bool)
| PInt (z : Z)
| PStr (s : string)
| PList (items : list pyval)
| PTuple (items : list pyval).

(** Exceptions are identified by their class name and carry their message. *)
Record exception : Type := Exc { exc_class : string; exc_msg : string }.

Definition IndexError (msg : string) : exception := Exc "IndexError" msg.
Definition KeyError (msg : string) : exception := Exc "KeyError" msg.
Definition TypeError (msg : string) : exception := Exc "TypeError" msg.

(** A computation either returns or raises. *)
Inductive result (A : Type) : Type :=
| Ok (a : A)
| Raise (e : exception).
Arguments Ok {A} a.
Arguments Raise {A} e.

(** Sequencing: an exception raised by the first statement propagates. *)
#[export] Instance result_ret : MRet result := fun A a => Ok a.
#[export] Instance result_bind : MBind result := fun A B f m =>
  match m with
  | Ok a => f a
  | Raise e => Raise e
  end.

(** *** [repr] and [str] *)

Definition hex_digit (n : nat) : ascii :=
  nth n (list_ascii_of_string "0123456789abcdef") "0"%char.

(** [\xhh], as [unicode_repr] writes a non-printable code point below 256. *)
Definition hex_escape (c : ascii) : string :=
  let n := nat_of_ascii c in
  String "\" (String "x" (String (hex_digit (n / 16)) (String (hex_digit (n mod 16)) ""))).

Definition double_quote : ascii := "034"%char.
Definition single_quote : ascii := "'"%char.

Fixpoint contains_char (c : ascii) (s : string) : bool :=
  match s with
  | EmptyString => false
  | String c' s' => Ascii.eqb c c' || contains_char c s'
  end.

(** [str.isprintable] on the code points 0..255: the controls, DEL, the C1
    controls, NO-BREAK SPACE and SOFT HYPHEN are not printable. *)
Definition printable (c : ascii) : bool :=
  let n := nat_of_ascii c in
  ((32 <=? n)%nat && (n <? 127)%nat) || ((161 <=? n)%nat && negb (n =? 173)%nat).

Definition repr_char (quote c : ascii) : string :=
  if Ascii.eqb c quote || Ascii.eqb c "\"%char then String "\" (String c "")
  else if Ascii.eqb c "009"%char then "\t"
  else if Ascii.eqb c "010"%char then "\n"
  else if Ascii.eqb c "013"%char then "\r"
  else if printable c then String c ""
  else hex_escape c.

Fixpoint repr_chars (quote : ascii) (s : string) : string :=
  match s with
  | EmptyString => EmptyString
  | String c s' => repr_char quote c +:+ repr_chars quote s'
  end.

(** [repr] of a [str]: single quotes, unless the text holds a single quote
    and no double quote. *)
Definition repr_str (s : string) : string :=
  let quote :=
    if contains_char single_quote s && negb (contains_char double_quote s)
    then double_quote else single_quote in
  String quote (repr_chars quote s) +:+ String quote "".

Definition repr_int (z : Z) : string := NilZero.string_of_int (Z.to_int z).

(** [", ".join(parts)] *)
Fixpoint join_comma (parts : list string) : string :=
  match parts with
  | [] => ""
  | [p] => p
  | p :: rest => p +:+ ", " +:+ join_comma rest
  end.

Fixpoint repr (v : pyval) : string :=
  match v with
  | PNone => "None"
  | PBool true => "True"
  | PBool false => "False"
  | PInt z => repr_int z
  | PStr s => repr_str s
  | PList items => "[" +:+ join_comma (List.map repr items) +:+ "]"
  | PTuple [x] => "(" +:+ repr x +:+ ",)"
  | PTuple items => "(" +:+ join_comma (List.map repr items) +:+ ")"
  end.

(** [str(v)], which is also what an f-string field [{v}] formats to: the
    text itself for a [str], [repr] otherwise. *)
Definition str (v : pyval) : string :=
  match v with
  | PStr s => s
  | _ => repr v
  end.

(** *** Equality, truth, hashing *)

(** [a == b]; [bool] is a subclass of [int], so [True == 1] and [False == 0]. *)
Fixpoint py_eq (a b : pyval) {struct a} : bool :=
  let fix all_eq (l1 l2 : list pyval) {struct l1} : bool :=
    match l1, l2 with
    | [], [] => true
    | x :: l1', y :: l2' => py_eq x y && all_eq l1' l2'
    | _, _ => false
    end in
  match a, b with
  | PNone, PNone => true
  | PBool x, PBool y => Bool.eqb x y
  | PBool x, PInt z => Z.eqb (Z.b2z x) z
  | PInt z, PBool x => Z.eqb z (Z.b2z x)
  | PInt x, PInt y => Z.eqb x y
  | PStr x, PStr y => String.eqb x y
  | PList l1, PList l2 => all_eq l1 l2
  | PTuple l1, PTuple l2 => all_eq l1 l2
  | _, _ => false
  end.

(** [x in xs] for a list display [xs]. *)
Definition py_in (x : pyval) (xs : list pyval) : bool := existsb (py_eq x) xs.

(** [bool(v)] *)
Definition truth (v : pyval) : bool :=
  match v with
  | PNone => false
  | PBool b => b
  | PInt z => negb (Z.eqb z 0)
  | PStr s => negb (String.eqb s "")
  | PList items | PTuple items => negb (Nat.eqb (length items) 0)
  end.

(** Whether [hash(v)] succeeds: a list is unhashable, and so is a tuple
    that holds one. *)
Fixpoint hashable (v : pyval) : bool :=
  match v with
  | PList _ => false
  | PTuple items => forallb hashable items
  | _ => true
  end.

Definition isinstance_tuple (v : pyval) : bool :=
  match v with PTuple _ => true | _ => false end.

Definition isinstance_bool (v : pyval) : bool :=
  match v with PBool _ => true | _ => false end.

Definition isinstance_str (v : pyval) : bool :=
  match v with PStr _ => true | _ => false end.

(** [t[i]] on a tuple. *)
Definition tuple_getitem (items : list pyval) (i : nat) : result pyval :=
  match nth_error items i with
  | Some v => Ok v
  | None => Raise (IndexError "tuple index out of range")
  end.

(** [reversed(v)], consumed by a [for] loop: lists, tuples and strings are
    reversible sequences (a string yields its characters). *)
Definition type_name (v : pyval) : string :=
  match v with
  | PNone => "NoneType"
  | PBool _ => "bool"
  | PInt _ => "int"
  | PStr _ => "str"
  | PList _ => "list"
  | PTuple _ => "tuple"
  end.

Definition reversed (v : pyval) : result (list pyval) :=
  match v with
  | PList items | PTuple items => Ok (rev items)
  | PStr s => Ok (rev (List.map (fun c => PStr (String c "")) (list_ascii_of_string s)))
  | _ => Raise (TypeError ("'" +:+ type_name v +:+ "' object is not reversible"))
  end.

End Py.

(** ** Regular expressions: the fragment of [re] that the two passes use *)

Module Re.

(** A pattern: a literal character, a greedy [[...]+] over a character
    class, a concatenation, or the capturing group number 1. *)
Inductive regex : Type :=
| Lit (c : ascii)
| ClassPlus (cls : ascii -> bool)
| Seq (r1 r2 : regex)
| Group (r : regex).

Section Matcher.
Context {R : Type}.

(** [[...]+] at the head of [s]: the longest run is tried first, and the
    engine backs off one character at a time while the continuation [k]
    (matched text, rest of the input) fails. *)
Fixpoint class_plus (cls : ascii -> bool) (s : string)
    (k : string -> string -> option R) : option R :=
  match s with
  | String c s' =>
      if cls c then
        match class_plus cls s' (fun m rest => k (String c m) rest) with
        | Some r => Some r
        | None => k (String c "") s'
        end
      else None
  | EmptyString => None
  end.

(** The backtracking matcher, anchored at the head of [s].  [g] is the text
    of group 1 so far; the continuation receives the matched text, group 1
    and the rest of the input. *)
Fixpoint re_match (r : regex) (s : string) (g : option string)
    (k : string -> option string -> string -> option R) : option R :=
  match r with
  | Lit c =>
      match s with
      | String c' s' => if Ascii.eqb c c' then k (String c' "") g s' else None
      | EmptyString => None
      end
  | ClassPlus cls => class_plus cls s (fun m rest => k m g rest)
  | Seq r1 r2 =>
      re_match r1 s g (fun m1 g1 rest1 =>
        re_match r2 rest1 g1 (fun m2 g2 rest2 => k (m1 +:+ m2) g2 rest2))
  | Group r1 => re_match r1 s g (fun m _ rest => k m (Some m) rest)
  end.

End Matcher.

(** A match object: the whole match, group 1, and the text after it. *)
Record match_object : Type :=
  Match { group0 : string; group1 : option string; after : string }.

(** [pattern.match(s)] *)
Definition match_at (r : regex) (s : string) : option match_object :=
  re_match r s None (fun m g rest => Some (Match m g rest)).

(** A replacement template: literal text and the back-reference [\1]. *)
Inductive template_item : Type :=
| Text (s : string)
| Backref1.

Fixpoint expand (template : list template_item) (m : match_object) : string :=
  match template with
  | [] => ""
  | Text s :: template' => s +:+ expand template' m
  | Backref1 :: template' =>
      match group1 m with Some g => g | None => "" end +:+ expand template' m
  end.

Lemma append_cons (c : ascii) (s t : string) : String c s +:+ t = String c (s +:+ t).
Proof. reflexivity. Qed.

Lemma append_nil_l (t : string) : "" +:+ t = t.
Proof. reflexivity. Qed.

Lemma append_nil_r (s : string) : s +:+ "" = s.
Proof. induction s as [|c s IH]; [reflexivity|]. rewrite append_cons, IH. reflexivity. Qed.

Lemma append_assoc (s t u : string) : (s +:+ t) +:+ u = s +:+ (t +:+ u).
Proof.
  induction s as [|c s IH]; [reflexivity|].
  rewrite !append_cons, IH. reflexivity.
Qed.

Lemma length_append (s t : string) :
  String.length (s +:+ t) = (String.length s + String.length t)%nat.
Proof.
  induction s as [|c s IH]; [reflexivity|].
  rewrite append_cons. simpl. rewrite IH. reflexivity.
Qed.

(** Whatever [class_plus] hands to its continuation is a non-empty run of
    class characters that, put before the rest, gives back the input. *)
Lemma class_plus_sound {R : Type} (cls : ascii -> bool) (s : string) :
  forall (k : string -> string -> option R) (res : R),
    class_plus cls s k = Some res ->
    exists m rest,
      s = m +:+ rest /\ m <> "" /\ forallb cls (list_ascii_of_string m) = true /\
      k m rest = Some res.
Proof.
  induction s as [|c s IH]; intros k res H; simpl in H; [discriminate|].
  destruct (cls c) eqn:Hc; [|discriminate].
  destruct (class_plus cls s (fun m rest => k (String c m) rest)) as [r|] eqn:Hrec.
  - injection H as ->. apply IH in Hrec as (m & rest & -> & _ & Hall & Hk).
    exists (String c m), rest. repeat split; try done.
    simpl. rewrite Hc. exact Hall.
  - exists (String c ""), s. repeat split; try done.
    simpl. rewrite Hc. reflexivity.
Qed.

(** Every pattern of the fragment consumes at least one character. *)
Lemma re_match_sound {R : Type} (r : regex) :
  forall (s : string) (g : option string)
         (k : string -> option string -> string -> option R) (res : R),
    re_match r s g k = Some res ->
    exists m g' rest, s = m +:+ rest /\ m <> "" /\ k m g' rest = Some res.
Proof.
  induction r as [c|cls|r1 IH1 r2 IH2|r1 IH1]; intros s g k res H; simpl in H.
  - destruct s as [|c' s']; [discriminate|].
    destruct (Ascii.eqb c c'); [|discriminate].
    exists (String c' ""), g, s'. done.
  - apply class_plus_sound in H as (m & rest & -> & Hm & _ & Hk).
    exists m, g, rest. done.
  - apply IH1 in H as (m1 & g1 & rest1 & -> & Hm1 & H).
    apply IH2 in H as (m2 & g2 & rest2 & -> & Hm2 & H).
    exists (m1 +:+ m2), g2, rest2. rewrite append_assoc. repeat split; try done.
    destruct m1; [done|]. rewrite append_cons. discriminate.
  - apply IH1 in H as (m & g' & rest & -> & Hm & H).
    exists m, (Some m), rest. done.
Qed.

Lemma match_at_consumes (r : regex) (s : string) (m : match_object) :
  match_at r s = Some m ->
  s = group0 m +:+ after m /\ group0 m <> "".
Proof.
  unfold match_at. intros H.
  apply re_match_sound in H as (m0 & g & rest & -> & Hm & [= <-]). done.
Qed.

Lemma match_at_shorter (r : regex) (s : string) (m : match_object) :
  match_at r s = Some m -> (String.length (after m) < String.length s)%nat.
Proof.
  intros H. apply match_at_consumes in H as [-> Hne].
  rewrite length_append. destruct (group0 m); [done|]. simpl. lia.
Qed.

Definition inspect {A : Type} (x : A) : { y : A | x = y } := exist _ x eq_refl.

(** [re.sub(pattern, template, s)]: the input is scanned from the left; at
    a position where the pattern matches, the expanded template is emitted
    and the scan resumes after the match; elsewhere the character is copied.
    No pattern of the fragment matches the empty string. *)
Equations sub (r : regex) (template : list template_item) (s : string) : string
  by wf (String.length s) lt :=
sub r template EmptyString := EmptyString;
sub r template (String c s') with inspect (match_at r (String c s')) := {
  | exist _ (Some m) Hm => expand template m +:+ sub r template (after m)
  | exist _ None _ => String c (sub r template s') }.
Next Obligation.
  intros. apply (match_at_shorter _ _ _ Hm).
Qed.

End Re.

(** ** The expression translator *)

Module AttrsParser.
Import Py.

(** *** The operator table (lines 8-31) *)

(** An operator renders a field and a value.  The result is a Python object:
    [equals_operator] hands the field back as it is. *)
Definition operator : Type := pyval -> pyval -> pyval.

Definition equals_operator : operator := fun field value =>
  if isinstance_bool value
  then (if truth value then field else PStr ("not " +:+ str field))
  else PStr (str field +:+ " == " +:+ repr value).

Definition not_equals_operator : operator := fun field value =>
  if isinstance_bool value
  then (if truth value then PStr ("not " +:+ str field) else field)
  else PStr (str field +:+ " != " +:+ repr value).

Definition OPERATORS : gmap string operator :=
  list_to_map
    [ ("=", equals_operator);
      ("!=", not_equals_operator);
      ("in", fun field value => PStr (str field +:+ " in " +:+ str value));
      ("not in", fun field value => PStr (str field +:+ " not in " +:+ str value));
      (">", fun field value => PStr (str field +:+ " > " +:+ repr value));
      ("<", fun field value => PStr (str field +:+ " < " +:+ repr value));
      (">=", fun field value => PStr (str field +:+ " >= " +:+ repr value));
      ("<=", fun field value => PStr (str field +:+ " <= " +:+ repr value)) ].

(** [AttrsParser.OPERATORS[key]]: the key is hashed, then looked up; only a
    [str] can equal one of the keys. *)
Definition OPERATORS_getitem (key : pyval) : result operator :=
  if negb (hashable key) then Raise (TypeError "unhashable type: 'list'")
  else match key with
       | PStr s =>
           match OPERATORS !! s with
           | Some f => Ok f
           | None => Raise (KeyError (repr key))
           end
       | _ => Raise (KeyError (repr key))
       end.

(** *** The stack (line 99)

    [stack] is a Python list used as a stack.  The Rocq list holds it top
    first: its head is the last element of the Python list, and [stack[0]]
    is its last element. *)
Definition stack : Type := list pyval.

Definition append (x : pyval) (st : stack) : stack := x :: st.

Definition pop (st : stack) : result (pyval * stack) :=
  match st with
  | x :: st' => Ok (x, st')
  | [] => Raise (IndexError "pop from empty list")
  end.

Fixpoint getitem0 (st : stack) : result pyval :=
  match st with
  | [] => Raise (IndexError "list index out of range")
  | [x] => Ok x
  | _ :: st' => getitem0 st'
  end.

(** *** The scan (lines 102-109) *)

(** Line 104: [AttrsParser.OPERATORS[token[1]](token[0], token[2])].  The
    callee is evaluated before the arguments. *)
Definition render_condition (token : list pyval) : result pyval :=
  key ← tuple_getitem token 1;
  f ← OPERATORS_getitem key;
  field ← tuple_getitem token 0;
  value ← tuple_getitem token 2;
  mret (f field value).

(** The f-string of line 109. *)
Definition join_expr (left_ : pyval) (op : string) (right_ : pyval) : pyval :=
  PStr ("(" +:+ str left_ +:+ " " +:+ op +:+ " " +:+ str right_ +:+ ")").

(** One iteration of the [for] loop.  A token that is neither a tuple nor
    one of ['&', '|'] falls through both tests and is skipped. *)
Definition scan_token (st : stack) (token : pyval) : result stack :=
  match token with
  | PTuple items =>
      rendered ← render_condition items;
      mret (append rendered st)
  | _ =>
      if py_in token [PStr "&"; PStr "|"] then
        '(left_, st) ← pop st;
        let op := if py_eq token (PStr "&") then "and" else "or" in
        '(right_, st) ← pop st;
        mret (append (join_expr left_ op right_) st)
      else mret st
  end.

Fixpoint scan (tokens : list pyval) (st : stack) : result stack :=
  match tokens with
  | [] => Ok st
  | token :: tokens' => st' ← scan_token st token; scan tokens' st'
  end.

(** *** The implicit ['&'] loop (lines 110-113)

    [while len(stack) > 1]: pop [right], pop [left], push
    ["(left and right)"]. *)
Equations implicit_and (st : stack) : stack by wf (length st) lt :=
implicit_and (right_ :: left_ :: st') :=
  implicit_and (append (join_expr left_ "and" right_) st');
implicit_and st := st.

(** *** The translator (lines 99-115) *)

(** What a call leaves behind: the lines it printed and what it returned or
    raised. *)
Record run : Type := Run { printed : list string; outcome : result pyval }.

Definition __convert_prefix_to_python_expression (prefix : pyval) : run :=
  if py_in prefix [PInt 0; PInt 1] then
    Run [] (Ok (PStr (str (PBool (truth prefix)))))
  else
    match (tokens ← reversed prefix; scan tokens []) with
    | Raise e => Run [] (Raise e)
    | Ok st =>
        let st := implicit_and st in
        match getitem0 st with
        | Raise e => Run [] (Raise e)
        | Ok bottom =>
            Run ["Adapted " +:+ str prefix +:+ " to " +:+ str bottom]
                (if negb (Nat.eqb (length st) 0) then getitem0 st else Ok (PStr ""))
        end
    end.

(** *** String methods used by the file passes *)

(** [s.startswith(p)] *)
Definition startswith (s p : string) : bool := String.prefix p s.

(** [s.find(p)]: the lowest index where [p] occurs, or -1. *)
Fixpoint find (s p : string) : Z :=
  if String.prefix p s then 0%Z
  else match s with
       | EmptyString => (-1)%Z
       | String _ s' => let i := find s' p in if (i <? 0)%Z then (-1)%Z else (i + 1)%Z
       end.

(** [p in s] *)
Definition contains (s p : string) : bool := (0 <=? find s p)%Z.

(** [s[:n]] and [s[n:]] for [n >= 0]. *)
Fixpoint slice_to (s : string) (n : nat) : string :=
  match n, s with
  | S n', String c s' => String c (slice_to s' n')
  | _, _ => EmptyString
  end.

Fixpoint slice_from (s : string) (n : nat) : string :=
  match n, s with
  | S n', String _ s' => slice_from s' n'
  | _, _ => s
  end.

(** [s.replace(a, b)] for single characters [a], [b]. *)
Fixpoint replace (s : string) (a b : ascii) : string :=
  match s with
  | EmptyString => EmptyString
  | String c s' => String (if Ascii.eqb c a then b else c) (replace s' a b)
  end.

(** [s.split('/')[-1]] *)
Fixpoint last_component (s : string) : string :=
  match s with
  | EmptyString => EmptyString
  | String c s' =>
      if contains_char "/"%char s then last_component s' else s
  end.

(** *** The placeholder passes (lines 60 and 72) *)

Definition in_range (lo hi c : ascii) : bool :=
  (nat_of_ascii lo <=? nat_of_ascii c)%nat && (nat_of_ascii c <=? nat_of_ascii hi)%nat.

(** The class [[a-zA-Z_.]] *)
Definition name_char (c : ascii) : bool :=
  in_range "a" "z" c || in_range "A" "Z" c || Ascii.eqb c "_" || Ascii.eqb c ".".

(** The pattern of line 60: a percent sign, an opening parenthesis, the class
    once or more and a closing parenthesis, all in group 1, then [d]. *)
Definition protect_pattern : Re.regex :=
  Re.Seq
    (Re.Group (Re.Seq (Re.Lit "%") (Re.Seq (Re.Lit "(") (Re.Seq (Re.ClassPlus name_char) (Re.Lit ")")))))
    (Re.Lit "d").

(** Its replacement: a quote, group 1, [d] and a quote. *)
Definition protect_template : list Re.template_item :=
  [Re.Text "'"; Re.Backref1; Re.Text "d'"].

(** The pattern of line 72: the placeholder with its [d], in group 1,
    between two single quotes. *)
Definition unprotect_pattern : Re.regex :=
  Re.Seq (Re.Lit "'")
    (Re.Seq
       (Re.Group
          (Re.Seq (Re.Lit "%") (Re.Seq (Re.Lit "(")
             (Re.Seq (Re.ClassPlus name_char) (Re.Seq (Re.Lit ")") (Re.Lit "d"))))))
       (Re.Lit "'")).

(** Its replacement: group 1. *)
Definition unprotect_template : list Re.template_item := [Re.Backref1].

Definition protect (xml_content : string) : string :=
  Re.sub protect_pattern protect_template xml_content.

Definition unprotect (xml_content : string) : string :=
  Re.sub unprotect_pattern unprotect_template xml_content.

(** *** Files, output and the libraries *)

(** The world a run acts on: the text of each file by path, and standard
    output.  The text of a file is what [open] in text mode reads from it:
    the characters decoded, every line ending as a line feed.  The bytes on
    disk and the platform's line separator are below this model. *)
Record world : Type := World { files : gmap string string; stdout : list string }.

(** A statement: it changes the world and returns or raises. *)
Definition io (A : Type) : Type := world -> world * result A.

#[export] Instance io_ret : MRet io := fun A a w => (w, Ok a).
#[export] Instance io_bind : MBind io := fun A B f m w =>
  match m w with
  | (w', Ok a) => f a w'
  | (w', Raise e) => (w', Raise e)
  end.

Definition lift {A : Type} (r : result A) : io A := fun w => (w, r).

Definition print (line : string) : io unit := fun w =>
  (World (files w) (stdout w ++ [line]), Ok tt).

(** A [for] loop whose body updates a value. *)
Fixpoint for_each {S I : Type} (body : S -> I -> io S) (items : list I) (s : S) : io S :=
  match items with
  | [] => mret s
  | item :: items' => s' ← body s item; for_each body items' s'
  end.

(** What the program asks of [lxml.etree], [ast] and [glob].  The tree is
    mutated in place by the program; here every mutation returns the new
    tree. *)
Record host : Type := Host {
  etree : Type;
  element : Type;
  (** [etree.parse(path).getroot()], given the text of the file at [path] *)
  etree_parse : string -> result etree;
  (** [root.xpath(query)] *)
  xpath : etree -> string -> list element;
  el_tag : etree -> element -> string;
  el_text : etree -> element -> option string;
  el_sourceline : etree -> element -> Z;
  (** [element.get(name)] *)
  el_get : etree -> element -> string -> option string;
  (** [element.set(name, value)] and [element.attrib[name] = value] *)
  el_set : etree -> element -> pyval -> pyval -> result etree;
  (** [element.text = value] *)
  el_set_text : etree -> element -> pyval -> result etree;
  (** [del element.attrib[name]] *)
  el_del : etree -> element -> string -> result etree;
  (** [etree.tostring(root, encoding='utf-8', pretty_print=True,
      xml_declaration=flag).decode('utf-8')] *)
  tostring : etree -> bool -> string;
  (** [ast.literal_eval(text.strip()).items()] *)
  literal_eval_items : string -> result (list (pyval * pyval));
  (** [glob.glob(pattern)] on the files present *)
  glob : gmap string string -> string -> list string
}.

(** *** The parser object and its passes (lines 34-158) *)

Record parser : Type := Parser {
  xml_path : string;
  has_xml_declaration : bool;
  (** set by [preprocess] only *)
  xml_declaration_double_quote : option bool
}.

Section Passes.
Variable H : host.
Variable TEST_MODE : bool.

(** Lines 39-42: [f.read()] on the file opened in text mode gives its
    text. *)
Definition __read_xml (self : parser) : io string := fun w =>
  match files w !! xml_path self with
  | Some xml_content => (w, Ok xml_content)
  | None => (w, Raise (Exc "FileNotFoundError" (xml_path self)))
  end.

(** Lines 44-48: [f.write] on the file opened in text mode makes
    [xml_content] the text of the file (a text without carriage return is
    read back as it was written); nothing is written in test mode. *)
Definition __write_xml (self : parser) (xml_content : string) : io unit := fun w =>
  if TEST_MODE then (w, Ok tt)
  else (World (<[xml_path self := xml_content]> (files w)) (stdout w), Ok tt).

Definition __init__ (xml_path : string) : io parser :=
  let self := Parser xml_path false None in
  _ ← __read_xml self;
  mret self.

Definition xml_version_double_quoted : string :=
  "<?xml version=" +:+ String double_quote "1.0" +:+ String double_quote "".

Definition preprocess (self : parser) : io parser :=
  xml_content ← __read_xml self;
  let self := Parser (xml_path self) (startswith xml_content "<?xml")
                     (Some (contains xml_content xml_version_double_quoted)) in
  let xml_content := protect xml_content in
  _ ← __write_xml self xml_content;
  mret self.

Definition postprocess (self : parser) : io unit :=
  xml_content ← __read_xml self;
  let xml_content := unprotect xml_content in
  fix_quotes ←
    (if has_xml_declaration self then
       match xml_declaration_double_quote self with
       | Some flag => mret flag
       | None =>
           lift (Raise (Exc "AttributeError"
                   "'AttrsParser' object has no attribute 'xml_declaration_double_quote'"))
       end
     else mret false);
  let xml_content :=
    if fix_quotes : bool then
      let index := find xml_content "?>" in
      let declaration := slice_to xml_content (Z.to_nat (index + 2)) in
      let rest := slice_from xml_content (Z.to_nat (index + 2)) in
      replace declaration single_quote double_quote +:+ rest
    else xml_content in
  __write_xml self xml_content.

(** [etree.parse(self.xml_path).getroot()]: [lxml] opens the file itself. *)
Definition parse_root (self : parser) : io (etree H) := fun w =>
  match files w !! xml_path self with
  | Some source => (w, etree_parse H source)
  | None => (w, Raise (Exc "OSError" ("Error reading file '" +:+ xml_path self +:+ "'")))
  end.

(** The translator as a statement: what it prints goes to standard output. *)
Definition translate (prefix : pyval) : io pyval := fun w =>
  let r := __convert_prefix_to_python_expression prefix in
  (World (files w) (stdout w ++ printed r), outcome r).

Definition __convert_and_update (self : parser) (root : etree H) (el : element H)
    : io (etree H) :=
  if String.eqb (el_tag H root el) "attribute" then
    match el_text H root el with
    | None | Some EmptyString =>
        _ ← print ("WARNING: " +:+ last_component (xml_path self) +:+ ":"
                   +:+ repr_int (el_sourceline H root el)
                   +:+ ": has no 'attrs' value, it must be adapted manually");
        mret root
    | Some source =>
        items ← lift (literal_eval_items H source);
        for_each (fun root '(attribute, value) =>
                    root ← lift (el_set H root el (PStr "name") attribute);
                    rendered ← translate value;
                    lift (el_set_text H root el rendered))
                 items root
    end
  else
    source ← lift (match el_get H root el "attrs" with
                   | Some source => Ok source
                   | None => Raise (Exc "AttributeError" "'NoneType' object has no attribute 'strip'")
                   end);
    items ← lift (literal_eval_items H source);
    root ← for_each (fun root '(attribute, value) =>
                       rendered ← translate value;
                       lift (el_set H root el attribute rendered))
                    items root;
    lift (el_del H root el "attrs").

Definition convert_attrs (self : parser) : io unit :=
  root ← parse_root self;
  root ← for_each (__convert_and_update self)
                  (xpath H root "//*[@attrs] | //attribute[@name='attrs']") root;
  __write_xml self (tostring H root (has_xml_declaration self)).

Definition convert_column_invisible (self : parser) : io unit :=
  root ← parse_root self;
  root ← for_each (fun root el =>
                     invisible ← lift (match el_get H root el "invisible" with
                                       | Some v => Ok v
                                       | None => Raise (KeyError "'invisible'")
                                       end);
                     root ← lift (el_set H root el (PStr "column_invisible")
                                    (PStr (if String.eqb invisible "1" then "True" else "False")));
                     lift (el_del H root el "invisible"))
                  (xpath H root "//tree//field[@invisible]") root;
  __write_xml self (tostring H root (has_xml_declaration self)).

Definition process_xml (self : parser) : io unit :=
  self ← preprocess self;
  _ ← convert_attrs self;
  _ ← convert_column_invisible self;
  postprocess self.

(** The loops of lines 171-174. *)
Definition process_path (xml_path : string) : io unit :=
  self ← __init__ xml_path;
  process_xml self.

Definition process_pattern (xml_path_pattern : string) : io unit := fun w =>
  for_each (fun _ xml_path => process_path xml_path)
           (glob H (files w) xml_path_pattern) tt w.

Definition main (xml_paths : list string) : io unit :=
  _ ← (if TEST_MODE
       then print "WARNING: Test mode enabled, the execution won't affect any file"
       else mret tt);
  for_each (fun _ xml_path_pattern => process_pattern xml_path_pattern) xml_paths tt.

End Passes.

End AttrsParser.

(** ** Vocabulary of the properties *)

Import Py AttrsParser.

(** *** Sequences of Conditions and join tokens *)

(** A Condition of the data model: a triple of a field path, one of the
    eight operators and a value. *)
Definition is_condition (token : pyval) : bool :=
  match token with
  | PTuple [PStr _; PStr op; _] =>
      match OPERATORS !! op with Some _ => true | None => false end
  | _ => false
  end.

(** A join token: the test of line 105. *)
Definition is_join (token : pyval) : bool := py_in token [PStr "&"; PStr "|"].

Definition count (p : pyval -> bool) (tokens : list pyval) : nat :=
  length (List.filter p tokens).

(** A call fails with an exception of class [cls]. *)
Definition fails_with (cls : string) (r : run) : Prop :=
  exists msg, outcome r = Raise (Exc cls msg).

(** *** Placeholders *)

(** The text [%(name)d] followed by [rest]. *)
Definition placeholder (name rest : string) : string :=
  String "%" (String "(" (name +:+ String ")" (String "d" rest))).

(** A placeholder name: one or more characters of the class. *)
Definition is_name (name : string) : Prop :=
  name <> "" /\ forallb name_char (list_ascii_of_string name) = true.

(** *** Files *)

(** A statement that writes no file. *)
Definition keeps_files {A : Type} (m : io A) : Prop :=
  forall w : world, files (m w).1 = files w.

(** *** A batch of two files

    The documents [a.xml], whose [attrs] override holds a lone ['|'], and
    [b.xml]; and a host that tabulates what [lxml], [ast] and [glob] do on
    them. *)

Definition doc_a : string :=
  "<data><attribute name='attrs'>{'invisible': ['|']}</attribute><p>%(base.user)d</p></data>".

Definition doc_b : string := "<p>%(base.group)d</p>".

(** [b.xml] as [etree.tostring] writes it after the first pass. *)
Definition doc_b_serialized : string := "<p>'%(base.group)d'</p>" +:+ String "010" "".

Inductive demo_tree : Type := TreeA | TreeB.

Definition demo_host : host := {|
  etree := demo_tree;
  element := unit;
  etree_parse := fun text =>
    if String.eqb text (protect doc_a) then Ok TreeA
    else if String.eqb text (protect doc_b) || String.eqb text doc_b_serialized then Ok TreeB
    else Raise (Exc "XMLSyntaxError" "");
  xpath := fun tree query =>
    match tree with
    | TreeA =>
        if String.eqb query "//*[@attrs] | //attribute[@name='attrs']" then [tt] else []
    | TreeB => []
    end;
  el_tag := fun _ _ => "attribute";
  el_text := fun _ _ => Some "{'invisible': ['|']}";
  el_sourceline := fun _ _ => 1%Z;
  el_get := fun _ _ _ => None;
  el_set := fun tree _ _ _ => Ok tree;
  el_set_text := fun tree _ _ => Ok tree;
  el_del := fun tree _ _ => Ok tree;
  tostring := fun tree _ =>
    match tree with TreeA => "" | TreeB => doc_b_serialized end;
  literal_eval_items := fun text =>
    if String.eqb text "{'invisible': ['|']}"
    then Ok [(PStr "invisible", PList [PStr "|"])]
    else Raise (Exc "SyntaxError" "");
  glob := fun present pattern =>
    match present !! pattern with Some _ => [pattern] | None => [] end
|}.

Definition demo_world : world :=
  World (<["a.xml" := doc_a]> (<["b.xml" := doc_b]> ∅)) [].

Definition doc_a_protected : string :=
  "<data><attribute name='attrs'>{'invisible': ['|']}</attribute><p>'%(base.user)d'</p></data>".

(** ** Vocabulary of the further properties *)

(** *** Domains in prefix notation *)

(** A well-formed domain: a Condition, or a join of two domains. *)
Inductive domain : Type :=
| Leaf (items : list pyval)
| And (l r : domain)
| Or (l r : domain).

(** Its tokens in prefix notation, as a domain is written in an [attrs]
    value. *)
Fixpoint prefix_tokens (d : domain) : list pyval :=
  match d with
  | Leaf items => [PTuple items]
  | And l r => PStr "&" :: prefix_tokens l ++ prefix_tokens r
  | Or l r => PStr "|" :: prefix_tokens l ++ prefix_tokens r
  end.

(** Its fully parenthesised infix form, operands in the order they are
    written. *)
Fixpoint infix (d : domain) : result pyval :=
  match d with
  | Leaf items => render_condition items
  | And l r => a ← infix l; b ← infix r; mret (join_expr a "and" b)
  | Or l r => a ← infix l; b ← infix r; mret (join_expr a "or" b)
  end.

(** A token that the scan skips: neither a tuple nor a join token. *)
Definition skipped (token : pyval) : bool :=
  negb (isinstance_tuple token) && negb (is_join token).

(** *** Frames *)

(** A statement that writes no file but the one at [path]. *)
Definition writes_only {A : Type} (path : string) (m : io A) : Prop :=
  forall (w : world) (p : string), p <> path -> files (m w).1 !! p = files w !! p.


(** *** A file with a declaration

    The document [c.xml], with a double-quoted declaration and no element to
    rewrite, and a host that tabulates what [lxml] does on it. *)

Definition doc_c : string := xml_version_double_quoted +:+ "?><p>%(a.b)d</p>".

(** [c.xml] as [etree.tostring] writes it, declaration in single quotes. *)
Definition doc_c_serialized : string :=
  "<?xml version='1.0' encoding='utf-8'?>" +:+ String "010" ("<p>'%(a.b)d'</p>" +:+ String "010" "").

Definition declared_host : host := {|
  etree := unit;
  element := unit;
  etree_parse := fun text =>
    if String.eqb text (protect doc_c) || String.eqb text doc_c_serialized then Ok tt
    else Raise (Exc "XMLSyntaxError" "");
  xpath := fun _ _ => [];
  el_tag := fun _ _ => "p";
  el_text := fun _ _ => None;
  el_sourceline := fun _ _ => 1%Z;
  el_get := fun _ _ _ => None;
  el_set := fun tree _ _ _ => Ok tree;
  el_set_text := fun tree _ _ => Ok tree;
  el_del := fun tree _ _ => Ok tree;
  tostring := fun _ _ => doc_c_serialized;
  literal_eval_items := fun _ => Raise (Exc "SyntaxError" "");
  glob := fun present pattern =>
    match present !! pattern with Some _ => [pattern] | None => [] end
|}.

(** ** Properties of the translator *)

Section OperatorTable.

Lemma OPERATORS_eq : OPERATORS !! "=" = Some equals_operator.
Proof. reflexivity. Qed.

Lemma OPERATORS_ne : OPERATORS !! "!=" = Some not_equals_operator.
Proof. reflexivity. Qed.

Lemma OPERATORS_in :
  OPERATORS !! "in" = Some (fun field value => PStr (str field +:+ " in " +:+ str value)).
Proof. reflexivity. Qed.

Lemma OPERATORS_not_in :
  OPERATORS !! "not in"
  = Some (fun field value => PStr (str field +:+ " not in " +:+ str value)).
Proof. reflexivity. Qed.

Lemma OPERATORS_gt :
  OPERATORS !! ">" = Some (fun field value => PStr (str field +:+ " > " +:+ repr value)).
Proof. reflexivity. Qed.

Lemma OPERATORS_lt :
  OPERATORS !! "<" = Some (fun field value => PStr (str field +:+ " < " +:+ repr value)).
Proof. reflexivity. Qed.

Lemma OPERATORS_ge :
  OPERATORS !! ">=" = Some (fun field value => PStr (str field +:+ " >= " +:+ repr value)).
Proof. reflexivity. Qed.

Lemma OPERATORS_le :
  OPERATORS !! "<=" = Some (fun field value => PStr (str field +:+ " <= " +:+ repr value)).
Proof. reflexivity. Qed.

(** Rendering a well-formed triple: the three subscripts succeed and the
    operator found under [op] is applied. *)
Lemma render_condition_triple (field value : pyval) (op : string) (f : operator) :
  OPERATORS !! op = Some f ->
  render_condition [field; PStr op; value] = Ok (f field value).
Proof.
  intros Hop. unfold render_condition, OPERATORS_getitem. simpl.
  rewrite Hop. reflexivity.
Qed.

End OperatorTable.

(** C2: a Condition whose value is [True] or [False], under [=] or [!=], is
    rendered in the terse form, with no comparison: [(F, "=", True)] gives
    [F], [(F, "=", False)] gives [not F], [(F, "!=", True)] gives [not F] and
    [(F, "!=", False)] gives [F]. *)
Theorem boolean_condition_is_terse (F : string) :
  render_condition [PStr F; PStr "="; PBool true] = Ok (PStr F) /\
  render_condition [PStr F; PStr "="; PBool false] = Ok (PStr ("not " +:+ F)) /\
  render_condition [PStr F; PStr "!="; PBool true] = Ok (PStr ("not " +:+ F)) /\
  render_condition [PStr F; PStr "!="; PBool false] = Ok (PStr F).
Proof.
  rewrite !(render_condition_triple _ _ "=" _ OPERATORS_eq).
  rewrite !(render_condition_triple _ _ "!=" _ OPERATORS_ne).
  repeat split.
Qed.

(** C7: the literal [0] is translated to ["False"] and the literal [1] to
    ["True"], at once: nothing is scanned and nothing is printed. *)
Theorem literal_zero_and_one :
  __convert_prefix_to_python_expression (PInt 0) = Run [] (Ok (PStr "False")) /\
  __convert_prefix_to_python_expression (PInt 1) = Run [] (Ok (PStr "True")).
Proof. split; reflexivity. Qed.

(** C10: the booleans [False] and [True] take the same shortcut, because
    [False == 0] and [True == 1]: they give ["False"] and ["True"]. *)
Theorem literal_false_and_true :
  py_in (PBool false) [PInt 0; PInt 1] = true /\
  py_in (PBool true) [PInt 0; PInt 1] = true /\
  __convert_prefix_to_python_expression (PBool false) = Run [] (Ok (PStr "False")) /\
  __convert_prefix_to_python_expression (PBool true) = Run [] (Ok (PStr "True")).
Proof. repeat split. Qed.

(** C6, on the code: for the empty sequence the [print] of line 114
    evaluates [stack[0]] on the empty stack and raises [IndexError]; the
    guarded [return] of line 115 is not reached and nothing is printed. *)
Theorem empty_sequence_raises :
  __convert_prefix_to_python_expression (PList []) =
  Run [] (Raise (IndexError "list index out of range")).
Proof. reflexivity. Qed.

(** C1, on the code: two Conditions with no join token come out in the
    reverse of their order, [[A, B]] as ["(b and a)"]; so does the example
    of the docstring (line 88). *)
Theorem implicit_and_reverses_two :
  outcome (__convert_prefix_to_python_expression
             (PList [PTuple [PStr "a"; PStr "="; PBool true];
                     PTuple [PStr "b"; PStr "="; PBool true]]))
  = Ok (PStr "(b and a)") /\
  outcome (__convert_prefix_to_python_expression
             (PList [PTuple [PStr "artisan_task"; PStr "="; PBool false];
                     PTuple [PStr "locked"; PStr "="; PBool true]]))
  = Ok (PStr "(locked and not artisan_task)").
Proof. split; reflexivity. Qed.

Section Joins.

Lemma implicit_and_single (x : pyval) : implicit_and [x] = [x].
Proof. now simp implicit_and. Qed.

Lemma implicit_and_pair (right_ left_ : pyval) (st : stack) :
  implicit_and (right_ :: left_ :: st) =
  implicit_and (join_expr left_ "and" right_ :: st).
Proof. now simp implicit_and. Qed.

(** A sequence: a join token in front of two Conditions. *)
Lemma convert_join_of_two (token : pyval) (A B : list pyval) (a b : pyval) (op : string) :
  scan_token [a; b] token = Ok [join_expr a op b] ->
  isinstance_tuple token = false ->
  render_condition A = Ok a ->
  render_condition B = Ok b ->
  outcome (__convert_prefix_to_python_expression (PList [token; PTuple A; PTuple B]))
  = Ok (join_expr a op b).
Proof.
  intros Hjoin Htok HA HB.
  unfold __convert_prefix_to_python_expression.
  assert (py_in (PList [token; PTuple A; PTuple B]) [PInt 0; PInt 1] = false) as ->
    by reflexivity.
  cbn [reversed mbind result_bind rev app scan scan_token].
  rewrite HB. cbn [mbind result_bind mret result_ret append scan scan_token].
  rewrite HA. cbn [mbind result_bind mret result_ret scan]. unfold append.
  rewrite Hjoin. cbn [mbind result_bind].
  rewrite implicit_and_single. reflexivity.
Qed.

End Joins.

(** C4: a join token pops [left] first, then [right], and pushes
    ["(left and right)"] for ['&'] and ["(left or right)"] for ['|'].  The
    first pop is the operand that stands first in the sequence, so
    [['|', A, B]] gives ["(" + render(A) + " or " + render(B) + ")"], and
    likewise with ['&'] and ["and"]. *)
Theorem explicit_join_keeps_order
    (st : stack) (left_ right_ : pyval) (A B : list pyval) (a b : pyval) :
  render_condition A = Ok a ->
  render_condition B = Ok b ->
  scan_token (left_ :: right_ :: st) (PStr "|")
    = Ok (PStr ("(" +:+ str left_ +:+ " or " +:+ str right_ +:+ ")") :: st) /\
  scan_token (left_ :: right_ :: st) (PStr "&")
    = Ok (PStr ("(" +:+ str left_ +:+ " and " +:+ str right_ +:+ ")") :: st) /\
  outcome (__convert_prefix_to_python_expression (PList [PStr "|"; PTuple A; PTuple B]))
    = Ok (PStr ("(" +:+ str a +:+ " or " +:+ str b +:+ ")")) /\
  outcome (__convert_prefix_to_python_expression (PList [PStr "&"; PTuple A; PTuple B]))
    = Ok (PStr ("(" +:+ str a +:+ " and " +:+ str b +:+ ")")).
Proof.
  intros HA HB. repeat split.
  - apply (convert_join_of_two (PStr "|") A B a b "or"); done.
  - apply (convert_join_of_two (PStr "&") A B a b "and"); done.
Qed.

(** The example of the specification: [['|', ("a","=",False), ("b","in",["x"])]]. *)
Lemma explicit_join_keeps_order_example :
  render_condition [PStr "a"; PStr "="; PBool false] = Ok (PStr "not a") /\
  render_condition [PStr "b"; PStr "in"; PList [PStr "x"]] = Ok (PStr "b in ['x']") /\
  outcome (__convert_prefix_to_python_expression
             (PList [PStr "|"; PTuple [PStr "a"; PStr "="; PBool false];
                     PTuple [PStr "b"; PStr "in"; PList [PStr "x"]]]))
  = Ok (PStr "(not a or b in ['x'])").
Proof.
  split; [reflexivity|]. split; [reflexivity|].
  exact (proj1 (proj2 (proj2
    (explicit_join_keeps_order [] PNone PNone
       [PStr "a"; PStr "="; PBool false] [PStr "b"; PStr "in"; PList [PStr "x"]]
       (PStr "not a") (PStr "b in ['x']") eq_refl eq_refl)))).
Defined.

(** *** Conditions with a value that is not a boolean *)

(** C3, as stated, fails on the code: [=] is rendered as [==], and [in]
    formats its value with [str], which leaves a string value bare. *)
Lemma equals_is_rendered_as_double_equals :
  render_condition [PStr "x"; PStr "="; PInt 1] = Ok (PStr "x == 1") /\
  PStr "x == 1" <> PStr ("x" +:+ " " +:+ "=" +:+ " " +:+ repr (PInt 1)) /\
  render_condition [PStr "name"; PStr "in"; PStr "abc"] = Ok (PStr "name in abc") /\
  PStr "name in abc" <> PStr ("name" +:+ " " +:+ "in" +:+ " " +:+ repr (PStr "abc")).
Proof. repeat split; discriminate. Qed.

Lemma str_is_repr (v : pyval) : isinstance_str v = false -> str v = repr v.
Proof. destruct v; simpl; intros; done. Qed.

(** C3, amended: for a Condition [(F, op, v)] whose value is not a boolean,
    [=] renders as [F == repr(v)]; [!=], [>], [<], [>=] and [<=] render as
    [F op repr(v)]; [in] and [not in] render as [F op repr(v)] when [v] is
    not a string. *)
Theorem nonboolean_condition_rendering (F op : string) (v : pyval) :
  isinstance_bool v = false ->
  (op = "=" ->
   render_condition [PStr F; PStr op; v] = Ok (PStr (F +:+ " == " +:+ repr v))) /\
  (In op ["!="; ">"; "<"; ">="; "<="] ->
   render_condition [PStr F; PStr op; v]
   = Ok (PStr (F +:+ " " +:+ op +:+ " " +:+ repr v))) /\
  (In op ["in"; "not in"] -> isinstance_str v = false ->
   render_condition [PStr F; PStr op; v]
   = Ok (PStr (F +:+ " " +:+ op +:+ " " +:+ repr v))).
Proof.
  intros Hbool. repeat split.
  - intros ->. rewrite (render_condition_triple _ _ "=" _ OPERATORS_eq).
    unfold equals_operator. rewrite Hbool. reflexivity.
  - intros Hop. simpl in Hop.
    destruct Hop as [<-|[<-|[<-|[<-|[<-|[]]]]]].
    + rewrite (render_condition_triple _ _ "!=" _ OPERATORS_ne).
      unfold not_equals_operator. rewrite Hbool. reflexivity.
    + rewrite (render_condition_triple _ _ ">" _ OPERATORS_gt). reflexivity.
    + rewrite (render_condition_triple _ _ "<" _ OPERATORS_lt). reflexivity.
    + rewrite (render_condition_triple _ _ ">=" _ OPERATORS_ge). reflexivity.
    + rewrite (render_condition_triple _ _ "<=" _ OPERATORS_le). reflexivity.
  - intros Hop Hstr. simpl in Hop. destruct Hop as [<-|[<-|[]]].
    + rewrite (render_condition_triple _ _ "in" _ OPERATORS_in).
      rewrite (str_is_repr v Hstr). reflexivity.
    + rewrite (render_condition_triple _ _ "not in" _ OPERATORS_not_in).
      rewrite (str_is_repr v Hstr). reflexivity.
Qed.

(** The example of the specification:
    [("incident_type", "not in", ["preventive", "op"])]. *)
Lemma nonboolean_condition_rendering_example :
  isinstance_bool (PList [PStr "preventive"; PStr "op"]) = false /\
  render_condition [PStr "incident_type"; PStr "not in"; PList [PStr "preventive"; PStr "op"]]
  = Ok (PStr "incident_type not in ['preventive', 'op']").
Proof.
  split; [reflexivity|].
  exact (proj2 (proj2
    (nonboolean_condition_rendering "incident_type" "not in"
       (PList [PStr "preventive"; PStr "op"]) eq_refl))
    (or_intror (or_introl eq_refl)) eq_refl).
Defined.

(** *** Sequences with an unmatched join token *)


Section Unmatched.

Lemma count_cons (p : pyval -> bool) (t : pyval) (ts : list pyval) :
  count p (t :: ts) = ((if p t then 1 else 0) + count p ts)%nat.
Proof. unfold count. simpl. destruct (p t); reflexivity. Qed.

Lemma count_rev (p : pyval -> bool) (ts : list pyval) : count p (rev ts) = count p ts.
Proof. unfold count. rewrite filter_rev, length_rev. reflexivity. Qed.

Lemma scan_condition (t : pyval) (st : stack) :
  is_condition t = true ->
  is_join t = false /\ exists r, scan_token st t = Ok (r :: st).
Proof.
  destruct t as [| | | |?|items]; try discriminate.
  destruct items as [|[| | |f| |] [|[| | |op| |] [|v [|]]]]; try discriminate.
  simpl. destruct (OPERATORS !! op) as [g|] eqn:Hop; [|discriminate].
  intros _. split; [reflexivity|].
  exists (g (PStr f) v). rewrite (render_condition_triple _ _ _ _ Hop). reflexivity.
Qed.

Lemma scan_join (t : pyval) (st : stack) :
  is_join t = true ->
  is_condition t = false /\
  match st with
  | left_ :: right_ :: st' => exists joined, scan_token st t = Ok (joined :: st')
  | _ => scan_token st t = Raise (IndexError "pop from empty list")
  end.
Proof.
  unfold is_join. intros Hj. split.
  - destruct t; try reflexivity. discriminate.
  - destruct t as [| | |s| |]; try discriminate.
    unfold scan_token. rewrite Hj.
    destruct st as [|l [|r st']]; try reflexivity.
    eexists. reflexivity.
Qed.

(** The scan over Conditions and join tokens: each Condition adds one string
    and each join removes one, a join never leaves the stack empty, and the
    only exception is the [pop] of an empty stack. *)
Lemma scan_balance (tokens : list pyval) :
  forall st : stack,
    Forall (fun t => is_condition t || is_join t = true) tokens ->
    match scan tokens st with
    | Ok st' =>
        (length st' + count is_join tokens = length st + count is_condition tokens)%nat /\
        (1 <= count is_join tokens -> 1 <= length st')%nat
    | Raise e => e = IndexError "pop from empty list"
    end.
Proof.
  induction tokens as [|t ts IH]; intros st HF.
  - simpl. split; [reflexivity|]. unfold count. simpl. lia.
  - apply Forall_cons_iff in HF as [Ht HF].
    rewrite !count_cons. cbn [scan].
    destruct (is_condition t) eqn:Hc.
    + destruct (scan_condition t st Hc) as [Hj [r ->]]. rewrite Hj.
      cbn [mbind result_bind].
      specialize (IH (r :: st) HF).
      destruct (scan ts (r :: st)) as [st'|e]; [|exact IH].
      simpl in IH. lia.
    + simpl in Ht. destruct (scan_join t st Ht) as [_ Hstep]. rewrite Ht.
      destruct st as [|l [|r st2]]; try (rewrite Hstep; reflexivity).
      destruct Hstep as [joined ->]. cbn [mbind result_bind].
      specialize (IH (joined :: st2) HF).
      destruct (scan ts (joined :: st2)) as [st'|e]; [|exact IH].
      simpl in IH. simpl. lia.
Qed.

End Unmatched.

(** C5, as stated, fails on the code: a lone ['|'] fails with the
    [IndexError] of [stack.pop()], not with a [MalformedExpressionError]. *)
Lemma lone_join_raises_IndexError :
  outcome (__convert_prefix_to_python_expression (PList [PStr "|"]))
  = Raise (IndexError "pop from empty list") /\
  fails_with "IndexError" (__convert_prefix_to_python_expression (PList [PStr "|"])) /\
  ~ fails_with "MalformedExpressionError"
      (__convert_prefix_to_python_expression (PList [PStr "|"])).
Proof.
  split; [reflexivity|]. split.
  - eexists. reflexivity.
  - intros [msg Hmsg]. discriminate Hmsg.
Qed.

(** C5, amended: for a sequence of Conditions and join tokens with at least
    one join token and no more Conditions than join tokens, the translator
    raises [IndexError] ("pop from empty list") from [stack.pop()]; it prints
    nothing and returns no string. *)
Theorem unmatched_join_raises_IndexError (tokens : list pyval) :
  Forall (fun t => is_condition t || is_join t = true) tokens ->
  (1 <= count is_join tokens)%nat ->
  (count is_condition tokens <= count is_join tokens)%nat ->
  __convert_prefix_to_python_expression (PList tokens)
  = Run [] (Raise (IndexError "pop from empty list")).
Proof.
  intros HF Hone Hmore.
  unfold __convert_prefix_to_python_expression.
  assert (py_in (PList tokens) [PInt 0; PInt 1] = false) as -> by reflexivity.
  cbn [reversed mbind result_bind].
  pose proof (scan_balance (rev tokens) [] (Forall_rev HF)) as Hscan.
  rewrite !count_rev in Hscan.
  destruct (scan (rev tokens) []) as [st'|e].
  - simpl in Hscan. lia.
  - rewrite Hscan. reflexivity.
Qed.

(** A join token in front of a single Condition. *)
Lemma unmatched_join_raises_IndexError_example :
  __convert_prefix_to_python_expression
    (PList [PStr "|"; PTuple [PStr "a"; PStr "="; PBool true]])
  = Run [] (Raise (IndexError "pop from empty list")).
Proof.
  apply unmatched_join_raises_IndexError.
  - repeat constructor.
  - vm_compute. lia.
  - vm_compute. lia.
Defined.

(** ** The placeholder passes are inverse to each other *)

Create Rewrite HintDb string_append.
#[local] Hint Rewrite Re.append_cons Re.append_nil_l Re.append_nil_r Re.append_assoc
  : string_append.

Ltac normalize_append :=
  repeat (progress (cbn [Re.expand Re.group0 Re.group1 Re.after];
                    autorewrite with string_append)).

Section Placeholders.

Lemma sub_empty (r : Re.regex) (t : list Re.template_item) : Re.sub r t "" = "".
Proof. now simp sub. Qed.

Lemma sub_match (r : Re.regex) (t : list Re.template_item) (c : ascii) (s' : string)
    (m : Re.match_object) :
  Re.match_at r (String c s') = Some m ->
  Re.sub r t (String c s') = Re.expand t m +:+ Re.sub r t (Re.after m).
Proof.
  intros Hm. rewrite Re.sub_equation_2.
  destruct (Re.inspect (Re.match_at r (String c s'))) as [[m'|] Heq]; simpl; congruence.
Qed.

Lemma sub_no_match (r : Re.regex) (t : list Re.template_item) (c : ascii) (s' : string) :
  Re.match_at r (String c s') = None ->
  Re.sub r t (String c s') = String c (Re.sub r t s').
Proof.
  intros Hm. rewrite Re.sub_equation_2.
  destruct (Re.inspect (Re.match_at r (String c s'))) as [[m'|] Heq]; simpl; congruence.
Qed.



Lemma placeholder_append (name rest t : string) :
  placeholder name rest +:+ t = placeholder name (rest +:+ t).
Proof.
  unfold placeholder. rewrite !Re.append_cons, Re.append_assoc, !Re.append_cons.
  reflexivity.
Qed.

(** The greedy run: when the text after a run of class characters does not
    start with one, and the continuation accepts the whole run, the whole
    run is the match. *)
Lemma class_plus_longest {R : Type} (cls : ascii -> bool) (name : string) :
  forall (rest : string) (k : string -> string -> option R) (res : R),
    name <> "" ->
    forallb cls (list_ascii_of_string name) = true ->
    match rest with String c _ => cls c = false | EmptyString => True end ->
    k name rest = Some res ->
    Re.class_plus cls (name +:+ rest) k = Some res.
Proof.
  induction name as [|c name IH]; intros rest k res Hne Hall Hrest Hk; [done|].
  simpl in Hall. apply andb_prop in Hall as [Hc Hall].
  rewrite Re.append_cons. simpl. rewrite Hc.
  destruct name as [|c' name'].
  - rewrite Re.append_nil_l.
    assert (Re.class_plus cls rest (fun m rest0 => k (String c m) rest0) = None) as ->.
    { destruct rest as [|c0 rest0]; [reflexivity|]. simpl. rewrite Hrest. reflexivity. }
    exact Hk.
  - rewrite (IH rest (fun m rest0 => k (String c m) rest0) res); done.
Qed.

Lemma protect_match_shape (s : string) (m : Re.match_object) :
  Re.match_at protect_pattern s = Some m ->
  exists name,
    is_name name /\ s = placeholder name (Re.after m) /\
    Re.expand protect_template m = String "'" (placeholder name "'").
Proof.
  unfold Re.match_at, protect_pattern. intros H. cbn [Re.re_match] in H.
  destruct s as [|c1 s1]; [discriminate|].
  destruct (Ascii.eqb "%" c1) eqn:E1; [|discriminate].
  destruct s1 as [|c2 s2]; [discriminate|].
  destruct (Ascii.eqb "(" c2) eqn:E2; [|discriminate].
  apply Ascii.eqb_eq in E1 as <-. apply Ascii.eqb_eq in E2 as <-.
  apply Re.class_plus_sound in H as (name & rest & -> & Hne & Hall & H).
  destruct rest as [|c3 rest3]; [discriminate|].
  destruct (Ascii.eqb ")" c3) eqn:E3; [|discriminate].
  destruct rest3 as [|c4 rest4]; [discriminate|].
  destruct (Ascii.eqb "d" c4) eqn:E4; [|discriminate].
  apply Ascii.eqb_eq in E3 as <-. apply Ascii.eqb_eq in E4 as <-.
  injection H as <-. exists name. split; [done|]. split; [reflexivity|].
  unfold placeholder, protect_template. normalize_append. reflexivity.
Qed.

Lemma protect_match_complete (name rest : string) :
  is_name name ->
  exists m,
    Re.match_at protect_pattern (placeholder name rest) = Some m /\
    Re.after m = rest /\
    Re.expand protect_template m = String "'" (placeholder name "'").
Proof.
  intros [Hne Hall]. eexists. split; [|split].
  - unfold Re.match_at, protect_pattern, placeholder. cbn [Re.re_match].
    rewrite !Ascii.eqb_refl.
    apply class_plus_longest; [done|done|reflexivity|].
    rewrite !Ascii.eqb_refl. reflexivity.
  - reflexivity.
  - unfold placeholder, protect_template. normalize_append. reflexivity.
Qed.

Lemma unprotect_match_shape (s : string) (m : Re.match_object) :
  Re.match_at unprotect_pattern s = Some m ->
  exists name,
    is_name name /\ s = String "'" (placeholder name (String "'" (Re.after m))) /\
    Re.expand unprotect_template m = placeholder name "".
Proof.
  unfold Re.match_at, unprotect_pattern. intros H. cbn [Re.re_match] in H.
  destruct s as [|c0 s0]; [discriminate|].
  destruct (Ascii.eqb "'" c0) eqn:E0; [|discriminate].
  destruct s0 as [|c1 s1]; [discriminate|].
  destruct (Ascii.eqb "%" c1) eqn:E1; [|discriminate].
  destruct s1 as [|c2 s2]; [discriminate|].
  destruct (Ascii.eqb "(" c2) eqn:E2; [|discriminate].
  apply Ascii.eqb_eq in E0 as <-.
  apply Ascii.eqb_eq in E1 as <-. apply Ascii.eqb_eq in E2 as <-.
  apply Re.class_plus_sound in H as (name & rest & -> & Hne & Hall & H).
  destruct rest as [|c3 rest3]; [discriminate|].
  destruct (Ascii.eqb ")" c3) eqn:E3; [|discriminate].
  destruct rest3 as [|c4 rest4]; [discriminate|].
  destruct (Ascii.eqb "d" c4) eqn:E4; [|discriminate].
  destruct rest4 as [|c5 rest5]; [discriminate|].
  destruct (Ascii.eqb "'" c5) eqn:E5; [|discriminate].
  apply Ascii.eqb_eq in E3 as <-. apply Ascii.eqb_eq in E4 as <-.
  apply Ascii.eqb_eq in E5 as <-.
  injection H as <-. exists name. split; [done|]. split; [reflexivity|].
  unfold placeholder, unprotect_template. normalize_append. reflexivity.
Qed.

Lemma unprotect_match_complete (name rest : string) :
  is_name name ->
  exists m,
    Re.match_at unprotect_pattern (String "'" (placeholder name (String "'" rest))) = Some m /\
    Re.after m = rest /\
    Re.expand unprotect_template m = placeholder name "".
Proof.
  intros [Hne Hall]. eexists. split; [|split].
  - unfold Re.match_at, unprotect_pattern, placeholder. cbn [Re.re_match].
    rewrite !Ascii.eqb_refl.
    apply class_plus_longest; [done|done|reflexivity|].
    rewrite !Ascii.eqb_refl. reflexivity.
  - reflexivity.
  - unfold placeholder, unprotect_template. normalize_append. reflexivity.
Qed.

Lemma protect_placeholder (name rest : string) :
  is_name name ->
  protect (placeholder name rest) = String "'" (placeholder name (String "'" (protect rest))).
Proof.
  intros Hname.
  destruct (protect_match_complete name rest Hname) as (m & Hm & Hafter & Hexp).
  unfold protect. unfold placeholder in Hm. unfold placeholder at 1.
  rewrite (sub_match _ _ _ _ _ Hm), Hexp, Hafter.
  rewrite Re.append_cons, placeholder_append. reflexivity.
Qed.

Lemma unprotect_quoted (name rest : string) :
  is_name name ->
  unprotect (String "'" (placeholder name (String "'" rest))) = placeholder name (unprotect rest).
Proof.
  intros Hname.
  destruct (unprotect_match_complete name rest Hname) as (m & Hm & Hafter & Hexp).
  unfold unprotect.
  rewrite (sub_match _ _ _ _ _ Hm), Hexp, Hafter.
  rewrite placeholder_append. reflexivity.
Qed.

(** What [protect] does at the head of a non-empty text. *)
Lemma protect_head (c : ascii) (s' : string) :
  (exists name rest, is_name name /\ String c s' = placeholder name rest) \/
  protect (String c s') = String c (protect s').
Proof.
  destruct (Re.match_at protect_pattern (String c s')) as [m|] eqn:Hm.
  - left. apply protect_match_shape in Hm as (name & Hname & Hs & _). eauto.
  - right. apply sub_no_match. exact Hm.
Qed.

Lemma contains_char_append (c : ascii) (s t : string) :
  contains_char c (s +:+ t) = contains_char c s || contains_char c t.
Proof.
  induction s as [|c' s IH]; [reflexivity|].
  rewrite Re.append_cons. simpl. rewrite IH, orb_assoc. reflexivity.
Qed.

Lemma name_has_no_quote (name : string) :
  forallb name_char (list_ascii_of_string name) = true ->
  contains_char "'" name = false.
Proof.
  induction name as [|c name IH]; [reflexivity|].
  cbn [list_ascii_of_string forallb contains_char].
  intros [Hc Hall]%andb_prop. rewrite (IH Hall), orb_false_r.
  destruct (Ascii.eqb "'" c) eqn:E; [|reflexivity].
  apply Ascii.eqb_eq in E as <-. discriminate Hc.
Qed.

(** A stretch without quotes at the head of the protected text was copied
    from the head of the original. *)
Lemma protect_copied_prefix (p : string) :
  forall s t : string,
    contains_char "'" p = false ->
    protect s = p +:+ t ->
    exists s', s = p +:+ s'.
Proof.
  induction p as [|x p IH]; intros s t Hp Hs.
  - exists s. reflexivity.
  - cbn [contains_char] in Hp. apply orb_false_elim in Hp as [Hx Hp].
    rewrite Re.append_cons in Hs.
    destruct s as [|c s0].
    + unfold protect in Hs. rewrite sub_empty in Hs. discriminate.
    + destruct (protect_head c s0) as [(name & rest & Hname & Heq)|Hcopy].
      * rewrite Heq, (protect_placeholder _ _ Hname) in Hs.
        injection Hs as <- _. rewrite Ascii.eqb_refl in Hx. discriminate Hx.
      * rewrite Hcopy in Hs. injection Hs as -> Hs.
        destruct (IH s0 t Hp Hs) as [s' ->]. exists s'. reflexivity.
Qed.

Lemma unprotect_protect_bounded (n : nat) :
  forall s : string, (String.length s <= n)%nat -> unprotect (protect s) = s.
Proof.
  induction n as [n IH] using lt_wf_ind. intros s Hlen.
  destruct s as [|c s0].
  - unfold protect, unprotect. rewrite !sub_empty. reflexivity.
  - destruct (protect_head c s0) as [(name & rest & Hname & Heq)|Hcopy].
    + rewrite Heq, (protect_placeholder _ _ Hname), (unprotect_quoted _ _ Hname).
      rewrite (IH (String.length rest)); [reflexivity| |lia].
      rewrite Heq in Hlen. unfold placeholder in Hlen. simpl in Hlen.
      rewrite Re.length_append in Hlen. simpl in Hlen. lia.
    + rewrite Hcopy.
      assert (Re.match_at unprotect_pattern (String c (protect s0)) = None) as Hnone.
      { destruct (Re.match_at unprotect_pattern (String c (protect s0))) as [m|] eqn:Hm;
          [exfalso|reflexivity].
        apply unprotect_match_shape in Hm as (name & Hname & Hs & _).
        injection Hs as -> Hs.
        destruct (protect_copied_prefix (placeholder name "") s0 (String "'" (Re.after m)))
          as [s' Hs'].
        - unfold placeholder. cbn [contains_char]. rewrite contains_char_append.
          rewrite (name_has_no_quote name (proj2 Hname)). reflexivity.
        - rewrite placeholder_append, Re.append_nil_l. exact Hs.
        - rewrite placeholder_append, Re.append_nil_l in Hs'.
          rewrite Hs', (protect_placeholder _ _ Hname) in Hs. discriminate Hs. }
      unfold unprotect. rewrite (sub_no_match _ _ _ _ Hnone).
      fold (unprotect (protect s0)).
      rewrite (IH (String.length s0)); [reflexivity| |lia].
      simpl in Hlen. lia.
Qed.

End Placeholders.

(** C8: wrapping the [%(...)d] placeholders in quotes (line 60) and then
    removing the quotes (line 72) gives back the original text, for every
    text. *)
Theorem unprotect_after_protect (xml_content : string) :
  unprotect (protect xml_content) = xml_content.
Proof. exact (unprotect_protect_bounded _ xml_content (le_n _)). Qed.

(** ** What an exception leaves on disk *)


Section FilePasses.
Variable H : host.

Lemma bind_run {A B : Type} (m : io A) (f : A -> io B) (w : world) :
  (m ≫= f) w =
  match m w with
  | (w', Ok a) => f a w'
  | (w', Raise e) => (w', Raise e)
  end.
Proof. reflexivity. Qed.

Lemma keeps_files_ret {A : Type} (a : A) : keeps_files (mret a : io A).
Proof. intros w. reflexivity. Qed.

Lemma keeps_files_lift {A : Type} (r : result A) : keeps_files (lift r).
Proof. intros w. reflexivity. Qed.

Lemma keeps_files_print (line : string) : keeps_files (print line).
Proof. intros w. reflexivity. Qed.

Lemma keeps_files_translate (prefix : pyval) : keeps_files (translate prefix).
Proof. intros w. reflexivity. Qed.

Lemma keeps_files_read (self : parser) : keeps_files (__read_xml self).
Proof. intros w. unfold __read_xml. destruct (files w !! xml_path self); reflexivity. Qed.

Lemma keeps_files_parse_root (self : parser) : keeps_files (parse_root H self).
Proof. intros w. unfold parse_root. destruct (files w !! xml_path self); reflexivity. Qed.

Lemma keeps_files_bind {A B : Type} (m : io A) (f : A -> io B) :
  keeps_files m -> (forall a, keeps_files (f a)) -> keeps_files (m ≫= f).
Proof.
  intros Hm Hf w. rewrite bind_run. specialize (Hm w).
  destruct (m w) as [w' [a|e]]; simpl in *; [|exact Hm].
  rewrite (Hf a w'). exact Hm.
Qed.

Lemma keeps_files_for_each {S I : Type} (body : S -> I -> io S) (items : list I) :
  (forall s item, keeps_files (body s item)) ->
  forall s, keeps_files (for_each body items s).
Proof.
  intros Hbody. induction items as [|item items IH]; intros s; simpl.
  - apply keeps_files_ret.
  - apply keeps_files_bind; [apply Hbody|exact IH].
Qed.

(** A loop over two lists in a row is the loop over the first, then the
    loop over the second. *)
Lemma for_each_app {S I : Type} (body : S -> I -> io S) (xs ys : list I) :
  forall (s : S) (w : world),
    for_each body (xs ++ ys) s w = (for_each body xs s ≫= for_each body ys) w.
Proof.
  induction xs as [|x xs IH]; intros s w; [reflexivity|].
  cbn [app for_each]. rewrite !bind_run.
  destruct (body s x w) as [w1 [s1|e]]; [|reflexivity].
  rewrite IH, bind_run. reflexivity.
Qed.

Lemma keeps_files_convert_and_update (self : parser) (root : etree H) (el : element H) :
  keeps_files (__convert_and_update H self root el).
Proof.
  unfold __convert_and_update.
  destruct (String.eqb (el_tag H root el) "attribute").
  - destruct (el_text H root el) as [[|c source]|].
    + apply keeps_files_bind; [apply keeps_files_print|intros; apply keeps_files_ret].
    + apply keeps_files_bind; [apply keeps_files_lift|intros items].
      apply keeps_files_for_each. intros r [attribute value].
      apply keeps_files_bind; [apply keeps_files_lift|intros].
      apply keeps_files_bind; [apply keeps_files_translate|intros].
      apply keeps_files_lift.
    + apply keeps_files_bind; [apply keeps_files_print|intros; apply keeps_files_ret].
  - apply keeps_files_bind; [apply keeps_files_lift|intros source].
    apply keeps_files_bind; [apply keeps_files_lift|intros items].
    apply keeps_files_bind; [|intros; apply keeps_files_lift].
    apply keeps_files_for_each. intros r [attribute value].
    apply keeps_files_bind; [apply keeps_files_translate|intros].
    apply keeps_files_lift.
Qed.

(** [convert_attrs] writes once, as its last statement: when it raises, it
    has written nothing. *)
Lemma convert_attrs_raise_keeps_files (test_mode : bool) (self : parser)
    (w w' : world) (e : exception) :
  convert_attrs H test_mode self w = (w', Raise e) -> files w' = files w.
Proof.
  unfold convert_attrs. rewrite bind_run.
  pose proof (keeps_files_parse_root self w) as Hread.
  destruct (parse_root H self w) as [w1 [root|e1]]; simpl in Hread;
    [|intros [= <- _]; exact Hread].
  rewrite bind_run.
  pose proof (keeps_files_for_each (__convert_and_update H self)
                (xpath H root "//*[@attrs] | //attribute[@name='attrs']")
                (keeps_files_convert_and_update self) root w1) as Hloop.
  destruct (for_each _ _ root w1) as [w2 [root'|e3]]; simpl in Hloop.
  - unfold __write_xml. destruct test_mode; discriminate.
  - intros [= <- _]. congruence.
Qed.

Lemma preprocess_writes_protected (self : parser) (w : world) (content : string) :
  files w !! xml_path self = Some content ->
  preprocess false self w =
  (World (<[xml_path self := protect content]> (files w)) (stdout w),
   Ok (Parser (xml_path self) (startswith content "<?xml")
              (Some (contains content xml_version_double_quoted)))).
Proof.
  intros Hfile. unfold preprocess. rewrite bind_run. unfold __read_xml at 1.
  rewrite Hfile. reflexivity.
Qed.

(** The file after a run of [process_xml] in which the [attrs] pass raises:
    the protected text of the first pass. *)
Lemma process_xml_raise (self : parser) (w w' : world) (content : string) (e : exception) :
  files w !! xml_path self = Some content ->
  convert_attrs H false
    (Parser (xml_path self) (startswith content "<?xml")
            (Some (contains content xml_version_double_quoted)))
    (World (<[xml_path self := protect content]> (files w)) (stdout w))
  = (w', Raise e) ->
  process_xml H false self w = (w', Raise e) /\
  files w' = <[xml_path self := protect content]> (files w).
Proof.
  intros Hfile Hraise. split.
  - unfold process_xml. rewrite bind_run, (preprocess_writes_protected _ _ _ Hfile).
    rewrite bind_run, Hraise. reflexivity.
  - apply convert_attrs_raise_keeps_files in Hraise. exact Hraise.
Qed.

End FilePasses.


(** C9, as stated, fails on the code.  The translator raises on the lone
    ['|'] of [a.xml]: the exception ends the batch, [a.xml] is left with the
    quoted placeholder that [preprocess] wrote, and [b.xml], which a run of
    its own rewrites, is never processed. *)
Lemma translator_error_ends_batch_after_a_write :
  (main demo_host false ["a.xml"; "b.xml"] demo_world).2
    = Raise (IndexError "pop from empty list") /\
  files (main demo_host false ["a.xml"; "b.xml"] demo_world).1 !! "a.xml"
    = Some doc_a_protected /\
  doc_a_protected <> doc_a /\
  files (main demo_host false ["a.xml"; "b.xml"] demo_world).1 !! "b.xml" = Some doc_b /\
  (main demo_host false ["b.xml"] demo_world).2 = Ok tt /\
  files (main demo_host false ["b.xml"] demo_world).1 !! "b.xml"
    = Some ("<p>%(base.group)d</p>" +:+ String "010" "").
Proof. repeat split; try discriminate; vm_compute; reflexivity. Qed.

(** C9, amended: outside test mode, when the [attrs] pass of a file of the
    batch raises (a translator error included) after the files before it
    were processed without error, the exception leaves [process_xml] and the
    batch loop uncaught.  The file then holds the text that [preprocess]
    wrote, the text read from it with each [%(...)d] placeholder in single
    quotes; none of its rewritten attributes is written; the files before it
    keep what their runs wrote, and no file after it is processed. *)
Theorem translator_error_leaves_protected_file
    (H : host) (before after done more : list string) (xml_path_pattern xml_path : string)
    (w w1 w2 w' : world) (content : string) (e : exception) :
  for_each (fun _ pattern => process_pattern H false pattern) before tt w = (w1, Ok tt) ->
  glob H (files w1) xml_path_pattern = done ++ xml_path :: more ->
  for_each (fun _ path => process_path H false path) done tt w1 = (w2, Ok tt) ->
  files w2 !! xml_path = Some content ->
  convert_attrs H false
    (Parser xml_path (startswith content "<?xml")
            (Some (contains content xml_version_double_quoted)))
    (World (<[xml_path := protect content]> (files w2)) (stdout w2))
  = (w', Raise e) ->
  main H false (before ++ xml_path_pattern :: after) w = (w', Raise e) /\
  files w' = <[xml_path := protect content]> (files w2).
Proof.
  intros Hbefore Hglob Hdone Hfile Hraise.
  destruct (process_xml_raise H (Parser xml_path false None) w2 w' content e Hfile Hraise)
    as [Hprocess Hfiles].
  split; [|exact Hfiles].
  unfold main. rewrite bind_run. cbn [mret io_ret].
  rewrite for_each_app, bind_run, Hbefore. cbn [for_each]. rewrite bind_run.
  unfold process_pattern at 1. rewrite Hglob.
  rewrite for_each_app, bind_run, Hdone. cbn [for_each]. rewrite bind_run.
  unfold process_path, __init__. rewrite !bind_run. unfold __read_xml at 1.
  cbn [AttrsParser.xml_path]. rewrite Hfile. cbn [mret io_ret].
  rewrite Hprocess. reflexivity.
Qed.

(** The batch [b.xml], [a.xml]: [b.xml] is processed and rewritten, then the
    translator raises its [IndexError] on [a.xml]. *)
Lemma translator_error_leaves_protected_file_example :
  for_each (fun _ pattern => process_pattern demo_host false pattern) ["b.xml"] tt demo_world
    = (World (<["b.xml" := "<p>%(base.group)d</p>" +:+ String "010" ""]> (files demo_world)) [],
       Ok tt) /\
  main demo_host false ["b.xml"; "a.xml"] demo_world
    = (World (<["a.xml" := protect doc_a]>
                (<["b.xml" := "<p>%(base.group)d</p>" +:+ String "010" ""]> (files demo_world)))
             [],
       Raise (IndexError "pop from empty list")) /\
  files (World (<["a.xml" := protect doc_a]>
                  (<["b.xml" := "<p>%(base.group)d</p>" +:+ String "010" ""]>
                     (files demo_world))) [])
    = <["a.xml" := protect doc_a]>
        (<["b.xml" := "<p>%(base.group)d</p>" +:+ String "010" ""]> (files demo_world)).
Proof.
  assert (for_each (fun _ pattern => process_pattern demo_host false pattern)
            ["b.xml"] tt demo_world
          = (World (<["b.xml" := "<p>%(base.group)d</p>" +:+ String "010" ""]>
                      (files demo_world)) [], Ok tt)) as Hbefore
    by (vm_compute; reflexivity).
  split; [exact Hbefore|].
  refine (translator_error_leaves_protected_file demo_host ["b.xml"] [] [] [] "a.xml" "a.xml"
           demo_world
           (World (<["b.xml" := "<p>%(base.group)d</p>" +:+ String "010" ""]>
                     (files demo_world)) [])
           (World (<["b.xml" := "<p>%(base.group)d</p>" +:+ String "010" ""]>
                     (files demo_world)) [])
           (World (<["a.xml" := protect doc_a]>
                     (<["b.xml" := "<p>%(base.group)d</p>" +:+ String "010" ""]>
                        (files demo_world))) [])
           doc_a (IndexError "pop from empty list") Hbefore _ _ _ _).
  - reflexivity.
  - reflexivity.
  - reflexivity.
  - vm_compute. reflexivity.
Defined.

(** *** The first and the last pass, back to back *)

Section BackToBack.

(** When no double-quoted declaration is to be restored, [postprocess] right
    after [preprocess] leaves the text of the file as it was. *)
Lemma postprocess_after_preprocess (self : parser) (w : world) (content : string) :
  files w !! xml_path self = Some content ->
  startswith content "<?xml" && contains content xml_version_double_quoted = false ->
  (self' ← preprocess false self; postprocess false self') w
  = (World (files w) (stdout w), Ok tt).
Proof.
  intros Hfile Hdecl.
  rewrite bind_run, (preprocess_writes_protected _ _ _ Hfile).
  unfold postprocess. rewrite bind_run. unfold __read_xml at 1.
  cbn [files xml_path has_xml_declaration xml_declaration_double_quote].
  rewrite lookup_insert_eq, bind_run.
  assert ((if startswith content "<?xml"
           then mret (contains content xml_version_double_quoted)
           else mret false) = (mret false : io bool)) as ->.
  { destruct (startswith content "<?xml"); [|reflexivity].
    simpl in Hdecl. rewrite Hdecl. reflexivity. }
  cbn [mret io_ret]. unfold __write_xml.
  cbn [files stdout xml_path].
  rewrite (unprotect_protect_bounded _ content (le_n _)).
  rewrite insert_insert_eq, (insert_id _ _ _ Hfile). reflexivity.
Qed.

End BackToBack.
(** ** Further properties of the translator *)

Section Scan.

Lemma scan_app (ts1 ts2 : list pyval) :
  forall st : stack, scan (ts1 ++ ts2) st = scan ts1 st ≫= scan ts2.
Proof.
  induction ts1 as [|t ts1 IH]; intros st; [reflexivity|].
  cbn [app scan]. destruct (scan_token st t) as [st'|e]; [|reflexivity].
  cbn [mbind result_bind]. apply IH.
Qed.

Lemma bind_ok_inv {A B : Type} (m : result A) (f : A -> result B) (b : B) :
  m ≫= f = Ok b -> exists a, m = Ok a /\ f a = Ok b.
Proof. destruct m as [a|e]; [|discriminate]. intros Hf. exists a. done. Qed.

(** Scanning the tokens of a domain, last token first, pushes its infix
    form. *)
Lemma scan_domain (d : domain) :
  forall (v : pyval) (more : list pyval) (st : stack),
    infix d = Ok v ->
    scan (rev (prefix_tokens d) ++ more) st = scan more (v :: st).
Proof.
  induction d as [items|l IHl r IHr|l IHl r IHr]; intros v more st Hv; cbn [infix] in Hv.
  - cbn [prefix_tokens rev app scan scan_token]. rewrite Hv. reflexivity.
  - apply bind_ok_inv in Hv as (a & Ha & Hv). apply bind_ok_inv in Hv as (b & Hb & [= <-]).
    cbn [prefix_tokens rev]. rewrite rev_app_distr, <- !app_assoc.
    rewrite (IHr b _ st Hb), (IHl a _ (b :: st) Ha). reflexivity.
  - apply bind_ok_inv in Hv as (a & Ha & Hv). apply bind_ok_inv in Hv as (b & Hb & [= <-]).
    cbn [prefix_tokens rev]. rewrite rev_app_distr, <- !app_assoc.
    rewrite (IHr b _ st Hb), (IHl a _ (b :: st) Ha). reflexivity.
Qed.

Lemma scan_domains (ds : list domain) :
  forall (vs : list pyval) (more : list pyval) (st : stack),
    Forall2 (fun d v => infix d = Ok v) ds vs ->
    scan (rev (flat_map prefix_tokens ds) ++ more) st = scan more (vs ++ st).
Proof.
  induction ds as [|d ds IH]; intros vs more st HF.
  - apply Forall2_nil_inv_l in HF as ->. reflexivity.
  - apply Forall2_cons_inv_l in HF as (v & vs' & Hv & HF & ->).
    cbn [flat_map]. rewrite rev_app_distr, <- app_assoc.
    rewrite (IH vs' _ st HF), (scan_domain d v more _ Hv). reflexivity.
Qed.

Lemma implicit_and_fold (v : pyval) (vs : list pyval) :
  implicit_and (v :: vs) = [fold_left (fun acc v' => join_expr v' "and" acc) vs v].
Proof.
  revert v. induction vs as [|v' vs IH]; intros v.
  - now simp implicit_and.
  - rewrite implicit_and_pair. unfold append. rewrite IH. reflexivity.
Qed.

Lemma convert_of_stack (tokens : list pyval) (v : pyval) (vs : list pyval) :
  scan (rev tokens) [] = Ok (v :: vs) ->
  __convert_prefix_to_python_expression (PList tokens) =
  let out := fold_left (fun acc v' => join_expr v' "and" acc) vs v in
  Run ["Adapted " +:+ repr (PList tokens) +:+ " to " +:+ str out] (Ok out).
Proof.
  intros Hscan. unfold __convert_prefix_to_python_expression.
  assert (py_in (PList tokens) [PInt 0; PInt 1] = false) as -> by reflexivity.
  cbn [reversed mbind result_bind]. rewrite Hscan, implicit_and_fold. reflexivity.
Qed.

End Scan.

(** X1: the tokens of a well-formed domain in prefix notation translate to
    its fully parenthesised infix form, operands in the order they are
    written; one line is printed. *)
Theorem prefix_domain_to_infix (d : domain) (v : pyval) :
  infix d = Ok v ->
  __convert_prefix_to_python_expression (PList (prefix_tokens d)) =
  Run ["Adapted " +:+ repr (PList (prefix_tokens d)) +:+ " to " +:+ str v] (Ok v).
Proof.
  intros Hv. apply (convert_of_stack _ v []).
  rewrite <- (app_nil_r (rev _)). rewrite (scan_domain d v [] [] Hv). reflexivity.
Qed.

(** X2: several domains in a row, with no join token between them, are
    joined with [and] from the left in reverse order: [[d1, d2, d3]] gives
    ["(d3 and (d2 and d1))"]. *)
Theorem implicit_and_of_domains (ds : list domain) (v : pyval) (vs : list pyval) :
  Forall2 (fun d v' => infix d = Ok v') ds (v :: vs) ->
  outcome (__convert_prefix_to_python_expression (PList (flat_map prefix_tokens ds)))
  = Ok (fold_left (fun acc v' => join_expr v' "and" acc) vs v).
Proof.
  intros HF. rewrite (convert_of_stack _ v vs); [reflexivity|].
  rewrite <- (app_nil_r (rev _)), (scan_domains ds (v :: vs) [] [] HF), app_nil_r.
  reflexivity.
Qed.

(** A domain of the shape of the docstring's last example (lines 94-97). *)
Lemma prefix_domain_to_infix_example :
  infix (Or (Leaf [PStr "partner_id"; PStr "="; PBool false])
            (Or (Leaf [PStr "stage_id"; PStr "not in"; PList [PInt 1; PInt 2]])
                (Leaf [PStr "complete_status"; PStr "not in"; PList [PStr "2"; PStr "3"]])))
  = Ok (PStr "(not partner_id or (stage_id not in [1, 2] or complete_status not in ['2', '3']))") /\
  outcome (__convert_prefix_to_python_expression
    (PList [PStr "|"; PTuple [PStr "partner_id"; PStr "="; PBool false];
            PStr "|"; PTuple [PStr "stage_id"; PStr "not in"; PList [PInt 1; PInt 2]];
            PTuple [PStr "complete_status"; PStr "not in"; PList [PStr "2"; PStr "3"]]]))
  = Ok (PStr "(not partner_id or (stage_id not in [1, 2] or complete_status not in ['2', '3']))").
Proof.
  split; [reflexivity|].
  exact (f_equal outcome
    (prefix_domain_to_infix
       (Or (Leaf [PStr "partner_id"; PStr "="; PBool false])
           (Or (Leaf [PStr "stage_id"; PStr "not in"; PList [PInt 1; PInt 2]])
               (Leaf [PStr "complete_status"; PStr "not in"; PList [PStr "2"; PStr "3"]])))
       _ eq_refl)).
Defined.

(** Two Conditions and a join of two, in a row. *)
Lemma implicit_and_of_domains_example :
  Forall2 (fun d v' => infix d = Ok v')
    [Leaf [PStr "a"; PStr "="; PBool true]; Leaf [PStr "b"; PStr "="; PBool true];
     Or (Leaf [PStr "c"; PStr "="; PBool true]) (Leaf [PStr "d"; PStr "="; PBool true])]
    [PStr "a"; PStr "b"; PStr "(c or d)"] /\
  outcome (__convert_prefix_to_python_expression
    (PList [PTuple [PStr "a"; PStr "="; PBool true]; PTuple [PStr "b"; PStr "="; PBool true];
            PStr "|"; PTuple [PStr "c"; PStr "="; PBool true];
            PTuple [PStr "d"; PStr "="; PBool true]]))
  = Ok (PStr "((c or d) and (b and a))").
Proof.
  assert (Forall2 (fun d v' => infix d = Ok v')
    [Leaf [PStr "a"; PStr "="; PBool true]; Leaf [PStr "b"; PStr "="; PBool true];
     Or (Leaf [PStr "c"; PStr "="; PBool true]) (Leaf [PStr "d"; PStr "="; PBool true])]
    [PStr "a"; PStr "b"; PStr "(c or d)"]) as HF.
  { repeat constructor. }
  split; [exact HF|].
  exact (implicit_and_of_domains _ _ _ HF).
Defined.

Section Skipping.

Lemma scan_token_skipped (t : pyval) (st : stack) :
  skipped t = true -> scan_token st t = Ok st.
Proof.
  unfold skipped, is_join. intros [Htuple Hjoin]%andb_prop.
  apply negb_true_iff in Htuple, Hjoin.
  destruct t; try discriminate; unfold scan_token; rewrite Hjoin; reflexivity.
Qed.

Lemma scan_without_skipped (ts : list pyval) :
  forall st : stack,
    scan ts st = scan (List.filter (fun t => negb (skipped t)) ts) st.
Proof.
  induction ts as [|t ts IH]; intros st; [reflexivity|].
  cbn [List.filter scan]. destruct (skipped t) eqn:Hs; cbn [negb].
  - rewrite (scan_token_skipped t st Hs). cbn [mbind result_bind]. apply IH.
  - cbn [scan]. destruct (scan_token st t) as [st'|e]; [|reflexivity].
    cbn [mbind result_bind]. apply IH.
Qed.

End Skipping.

(** X4: a token that is neither a tuple nor ['&'] or ['|'] (a ['!'], a
    Condition written as a list) has no effect on the result: the sequence
    without such tokens gives the same outcome. *)
Theorem skipped_tokens_are_dropped (tokens : list pyval) :
  outcome (__convert_prefix_to_python_expression (PList tokens)) =
  outcome (__convert_prefix_to_python_expression
             (PList (List.filter (fun t => negb (skipped t)) tokens))).
Proof.
  unfold __convert_prefix_to_python_expression.
  assert (forall ts, py_in (PList ts) [PInt 0; PInt 1] = false) as Hin by reflexivity.
  rewrite !Hin. cbn [reversed mbind result_bind].
  rewrite (scan_without_skipped (rev tokens) []), filter_rev.
  destruct (scan _ []) as [st|e]; [|reflexivity].
  destruct (getitem0 (implicit_and st)); reflexivity.
Qed.

(** X5: a sequence that holds no tuple and no join token leaves the stack
    empty, and the translator raises [IndexError] at [stack[0]]. *)
Theorem only_skipped_tokens_raise (tokens : list pyval) :
  Forall (fun t => skipped t = true) tokens ->
  __convert_prefix_to_python_expression (PList tokens)
  = Run [] (Raise (IndexError "list index out of range")).
Proof.
  intros HF. unfold __convert_prefix_to_python_expression.
  assert (py_in (PList tokens) [PInt 0; PInt 1] = false) as -> by reflexivity.
  cbn [reversed mbind result_bind].
  rewrite (scan_without_skipped (rev tokens) []), filter_rev.
  assert (List.filter (fun t => negb (skipped t)) tokens = []) as ->.
  { induction HF as [|t ts Ht _ IH]; [reflexivity|]. cbn [List.filter]. rewrite Ht. exact IH. }
  reflexivity.
Qed.

(** A negation and a Condition written as a list. *)
Lemma only_skipped_tokens_raise_example :
  Forall (fun t => skipped t = true)
    [PStr "!"; PList [PStr "state"; PStr "="; PStr "draft"]] /\
  __convert_prefix_to_python_expression
    (PList [PStr "!"; PList [PStr "state"; PStr "="; PStr "draft"]])
  = Run [] (Raise (IndexError "list index out of range")).
Proof.
  assert (Forall (fun t => skipped t = true)
            [PStr "!"; PList [PStr "state"; PStr "="; PStr "draft"]]) as HF.
  { repeat constructor. }
  split; [exact HF|]. exact (only_skipped_tokens_raise _ HF).
Defined.

Section ConditionErrors.

(** The scan stops at the first Condition, from the right, that fails to
    render: its exception is the result and nothing is printed. *)
Lemma condition_error_propagates
    (before after items : list pyval) (st : stack) (e : exception) :
  scan (rev after) [] = Ok st ->
  render_condition items = Raise e ->
  __convert_prefix_to_python_expression (PList (before ++ PTuple items :: after))
  = Run [] (Raise e).
Proof.
  intros Hafter Hitems. unfold __convert_prefix_to_python_expression.
  assert (py_in (PList (before ++ PTuple items :: after)) [PInt 0; PInt 1] = false) as ->
    by reflexivity.
  cbn [reversed mbind result_bind].
  rewrite rev_app_distr. cbn [rev]. rewrite <- app_assoc, scan_app, Hafter.
  cbn [mbind result_bind app scan scan_token]. rewrite Hitems. reflexivity.
Qed.

End ConditionErrors.

(** X8: line 104 succeeds exactly on a tuple of three items or more whose
    second item is one of the eight operator strings; the items after the
    third are ignored and the field may be any value. *)
Theorem render_condition_ok_iff (items : list pyval) (v : pyval) :
  render_condition items = Ok v <->
  exists (field : pyval) (op : string) (value : pyval) (rest : list pyval) (f : operator),
    items = field :: PStr op :: value :: rest /\
    OPERATORS !! op = Some f /\ v = f field value.
Proof.
  split.
  - destruct items as [|field [|key [|value rest]]]; try discriminate.
    + unfold render_condition. cbn [tuple_getitem nth_error mbind result_bind].
      destruct (OPERATORS_getitem key); discriminate.
    + unfold render_condition, OPERATORS_getitem.
      cbn [tuple_getitem nth_error mbind result_bind].
      destruct (hashable key); cbn [negb]; [|discriminate].
      destruct key as [| | |op| |]; try discriminate.
      destruct (OPERATORS !! op) as [f|] eqn:Hop; [|discriminate].
      intros [= <-]. exists field, op, value, rest, f. done.
  - intros (field & op & value & rest & f & -> & Hop & ->).
    unfold render_condition, OPERATORS_getitem.
    cbn [tuple_getitem nth_error mbind result_bind hashable negb]. rewrite Hop. reflexivity.
Qed.

(** X6: a Condition whose operator is a string outside the table raises
    [KeyError] with the operator's [repr], whatever stands to its left, once
    the tokens to its right have been scanned; the lookup comes before the
    value is read, so this holds for a tuple of two items too. *)
Theorem unsupported_operator_raises_KeyError
    (before after rest : list pyval) (field : pyval) (op : string) (st : stack) :
  scan (rev after) [] = Ok st ->
  OPERATORS !! op = None ->
  __convert_prefix_to_python_expression
    (PList (before ++ PTuple (field :: PStr op :: rest) :: after))
  = Run [] (Raise (KeyError (repr (PStr op)))).
Proof.
  intros Hafter Hop. apply (condition_error_propagates _ _ _ st); [exact Hafter|].
  unfold render_condition, OPERATORS_getitem.
  cbn [tuple_getitem nth_error mbind result_bind hashable negb]. rewrite Hop. reflexivity.
Qed.

(** The operator [ilike], to the left of a Condition that renders. *)
Lemma unsupported_operator_raises_KeyError_example :
  scan (rev [PTuple [PStr "active"; PStr "="; PBool true]]) [] = Ok [PStr "active"] /\
  OPERATORS !! "ilike" = None /\
  __convert_prefix_to_python_expression
    (PList [PStr "&"; PTuple [PStr "name"; PStr "ilike"; PStr "abc"];
            PTuple [PStr "active"; PStr "="; PBool true]])
  = Run [] (Raise (KeyError "'ilike'")).
Proof.
  split; [reflexivity|]. split; [reflexivity|].
  exact (unsupported_operator_raises_KeyError [PStr "&"]
           [PTuple [PStr "active"; PStr "="; PBool true]] [PStr "abc"]
           (PStr "name") "ilike" [PStr "active"] eq_refl eq_refl).
Defined.

(** X7: a tuple of fewer than two items, or of a field and a supported
    operator with no value, raises [IndexError] ("tuple index out of
    range"). *)
Theorem short_tuple_raises_IndexError
    (before after items : list pyval) (st : stack) :
  scan (rev after) [] = Ok st ->
  (length items <= 1)%nat \/
  (exists (field : pyval) (op : string) (f : operator),
     items = [field; PStr op] /\ OPERATORS !! op = Some f) ->
  __convert_prefix_to_python_expression (PList (before ++ PTuple items :: after))
  = Run [] (Raise (IndexError "tuple index out of range")).
Proof.
  intros Hafter Hshort. apply (condition_error_propagates _ _ _ st); [exact Hafter|].
  destruct Hshort as [Hlen|(field & op & f & -> & Hop)].
  - destruct items as [|x [|y items]]; [reflexivity|reflexivity|simpl in Hlen; lia].
  - unfold render_condition, OPERATORS_getitem.
    cbn [tuple_getitem nth_error mbind result_bind hashable negb]. rewrite Hop. reflexivity.
Qed.

(** A Condition without its value. *)
Lemma short_tuple_raises_IndexError_example :
  scan (rev []) [] = Ok [] /\
  (exists (field : pyval) (op : string) (f : operator),
     [PStr "locked"; PStr "="] = [field; PStr op] /\ OPERATORS !! op = Some f) /\
  __convert_prefix_to_python_expression (PList [PTuple [PStr "locked"; PStr "="]])
  = Run [] (Raise (IndexError "tuple index out of range")).
Proof.
  assert (exists (field : pyval) (op : string) (f : operator),
            [PStr "locked"; PStr "="] = [field; PStr op] /\ OPERATORS !! op = Some f) as Hex.
  { exists (PStr "locked"), "=", equals_operator. split; reflexivity. }
  split; [reflexivity|]. split; [exact Hex|].
  exact (short_tuple_raises_IndexError [] [] [PStr "locked"; PStr "="] [] eq_refl
           (or_intror Hex)).
Defined.

(** X9: an integer other than 0 and 1 is not a sequence: [reversed] raises
    [TypeError]. *)
Theorem other_integers_are_not_reversible (z : Z) :
  z <> 0%Z -> z <> 1%Z ->
  __convert_prefix_to_python_expression (PInt z)
  = Run [] (Raise (TypeError "'int' object is not reversible")).
Proof.
  intros H0 H1. unfold __convert_prefix_to_python_expression.
  assert (py_in (PInt z) [PInt 0; PInt 1] = false) as ->.
  { cbn [py_in existsb py_eq]. apply Z.eqb_neq in H0, H1. rewrite H0, H1. reflexivity. }
  reflexivity.
Qed.

(** The integer 2. *)
Lemma other_integers_are_not_reversible_example :
  __convert_prefix_to_python_expression (PInt 2)
  = Run [] (Raise (TypeError "'int' object is not reversible")).
Proof. apply other_integers_are_not_reversible; discriminate. Defined.

Section Converse.

Lemma is_condition_renders (t : pyval) :
  is_condition t = true ->
  exists items r, t = PTuple items /\ render_condition items = Ok r.
Proof.
  destruct t as [| | | |?|items]; try discriminate.
  destruct items as [|[| | |f| |] [|[| | |op| |] [|v [|]]]]; try discriminate.
  simpl. destruct (OPERATORS !! op) as [g|] eqn:Hop; [|discriminate].
  intros _. eexists _, (g (PStr f) v). split; [reflexivity|].
  apply render_condition_triple. exact Hop.
Qed.

Lemma is_join_cases (t : pyval) :
  is_join t = true -> t = PStr "&" \/ t = PStr "|".
Proof.
  unfold is_join. destruct t as [| | |s| |]; try discriminate.
  cbn [py_in existsb py_eq]. rewrite orb_false_r.
  intros [Hs|Hs]%orb_prop; apply String.eqb_eq in Hs as ->; auto.
Qed.

(** The stack of a successful scan, read as domains: the tokens scanned so
    far are the tokens of the domains on the stack, top first. *)
Lemma scan_builds_domains (ts : list pyval) :
  forall (ds : list domain) (vs st' : stack),
    Forall (fun t => is_condition t || is_join t = true) ts ->
    Forall2 (fun d v => infix d = Ok v) ds vs ->
    scan ts vs = Ok st' ->
    exists ds',
      Forall2 (fun d v => infix d = Ok v) ds' st' /\
      flat_map prefix_tokens ds' = rev ts ++ flat_map prefix_tokens ds.
Proof.
  induction ts as [|t ts IH]; intros ds vs st' HF Hds Hscan.
  - injection Hscan as <-. exists ds. split; [exact Hds|reflexivity].
  - apply Forall_cons_iff in HF as [Ht HF]. cbn [scan] in Hscan.
    apply bind_ok_inv in Hscan as (st1 & Htoken & Hscan).
    cbn [rev]. rewrite <- app_assoc. cbn [app].
    destruct (is_condition t) eqn:Hc.
    + destruct (is_condition_renders t Hc) as (items & r & -> & Hr).
      cbn [scan_token] in Htoken. rewrite Hr in Htoken. injection Htoken as <-.
      destruct (IH (Leaf items :: ds) (r :: vs) st' HF) as (ds' & Hds' & Hflat);
        [constructor; [exact Hr|exact Hds]|exact Hscan|].
      exists ds'. split; [exact Hds'|exact Hflat].
    + simpl in Ht. destruct (is_join_cases t Ht) as [-> | ->].
      * destruct Hds as [|da a ds1 vs1 Ha Hds]; [discriminate|].
        destruct Hds as [|db b ds2 vs2 Hb Hds]; [discriminate|].
        injection Htoken as <-.
        destruct (IH (And da db :: ds2) (join_expr a "and" b :: vs2) st' HF)
          as (ds' & Hds' & Hflat); [|exact Hscan|].
        { constructor; [|exact Hds]. cbn [infix]. rewrite Ha, Hb. reflexivity. }
        exists ds'. split; [exact Hds'|]. rewrite Hflat. cbn [flat_map prefix_tokens app].
        rewrite <- ?app_assoc. reflexivity.
      * destruct Hds as [|da a ds1 vs1 Ha Hds]; [discriminate|].
        destruct Hds as [|db b ds2 vs2 Hb Hds]; [discriminate|].
        injection Htoken as <-.
        destruct (IH (Or da db :: ds2) (join_expr a "or" b :: vs2) st' HF)
          as (ds' & Hds' & Hflat); [|exact Hscan|].
        { constructor; [|exact Hds]. cbn [infix]. rewrite Ha, Hb. reflexivity. }
        exists ds'. split; [exact Hds'|]. rewrite Hflat. cbn [flat_map prefix_tokens app].
        rewrite <- ?app_assoc. reflexivity.
Qed.

End Converse.

(** X3: when the translator returns on a sequence of Conditions and join
    tokens, the sequence is one or more well-formed prefix domains in a row,
    and the result is their implicit [and]. *)
Theorem success_means_prefix_domains (tokens : list pyval) (v : pyval) :
  Forall (fun t => is_condition t || is_join t = true) tokens ->
  outcome (__convert_prefix_to_python_expression (PList tokens)) = Ok v ->
  exists (ds : list domain) (v1 : pyval) (vs : list pyval),
    tokens = flat_map prefix_tokens ds /\
    Forall2 (fun d v' => infix d = Ok v') ds (v1 :: vs) /\
    v = fold_left (fun acc v' => join_expr v' "and" acc) vs v1.
Proof.
  intros HF. unfold __convert_prefix_to_python_expression.
  assert (py_in (PList tokens) [PInt 0; PInt 1] = false) as -> by reflexivity.
  cbn [reversed mbind result_bind].
  destruct (scan (rev tokens) []) as [st|e] eqn:Hscan; [|discriminate].
  destruct (scan_builds_domains (rev tokens) [] [] st (Forall_rev HF) (List.Forall2_nil _) Hscan)
    as (ds & Hds & Hflat).
  rewrite rev_involutive, app_nil_r in Hflat.
  destruct st as [|v1 vs]; [discriminate|].
  rewrite implicit_and_fold. cbn. intros [= <-].
  exists ds, v1, vs. done.
Qed.

(** A join of two Conditions. *)
Lemma success_means_prefix_domains_example :
  exists (ds : list domain) (v1 : pyval) (vs : list pyval),
    [PStr "|"; PTuple [PStr "a"; PStr "="; PBool true]; PTuple [PStr "b"; PStr "="; PBool true]]
    = flat_map prefix_tokens ds /\
    Forall2 (fun d v' => infix d = Ok v') ds (v1 :: vs) /\
    PStr "(a or b)" = fold_left (fun acc v' => join_expr v' "and" acc) vs v1.
Proof.
  apply (success_means_prefix_domains
           [PStr "|"; PTuple [PStr "a"; PStr "="; PBool true];
            PTuple [PStr "b"; PStr "="; PBool true]] (PStr "(a or b)")).
  - repeat constructor.
  - reflexivity.
Defined.

(** ** Further properties of the placeholder passes *)

Section Copying.

Lemma protect_head_not_percent (c : ascii) (s : string) :
  Ascii.eqb "%" c = false -> protect (String c s) = String c (protect s).
Proof.
  intros Hc. apply sub_no_match.
  unfold Re.match_at, protect_pattern. cbn [Re.re_match]. rewrite Hc. reflexivity.
Qed.

Lemma unprotect_head_not_quote (c : ascii) (s : string) :
  Ascii.eqb "'" c = false -> unprotect (String c s) = String c (unprotect s).
Proof.
  intros Hc. apply sub_no_match.
  unfold Re.match_at, unprotect_pattern. cbn [Re.re_match]. rewrite Hc. reflexivity.
Qed.

Lemma protect_copies (pre t : string) :
  contains_char "%" pre = false -> protect (pre +:+ t) = pre +:+ protect t.
Proof.
  induction pre as [|c pre IH]; [reflexivity|].
  cbn [contains_char]. intros [Hc Hpre]%orb_false_elim.
  rewrite !Re.append_cons, (protect_head_not_percent _ _ Hc), (IH Hpre). reflexivity.
Qed.

Lemma unprotect_copies (pre t : string) :
  contains_char "'" pre = false -> unprotect (pre +:+ t) = pre +:+ unprotect t.
Proof.
  induction pre as [|c pre IH]; [reflexivity|].
  cbn [contains_char]. intros [Hc Hpre]%orb_false_elim.
  rewrite !Re.append_cons, (unprotect_head_not_quote _ _ Hc), (IH Hpre). reflexivity.
Qed.

Lemma protect_empty : protect "" = "".
Proof. apply sub_empty. Qed.

Lemma unprotect_empty : unprotect "" = "".
Proof. apply sub_empty. Qed.

End Copying.

(** X10: a text without a percent sign is left as it is by the protection
    step. *)
Theorem protect_without_percent (xml_content : string) :
  contains_char "%" xml_content = false -> protect xml_content = xml_content.
Proof.
  intros Hc. rewrite <- (Re.append_nil_r xml_content) at 1.
  rewrite (protect_copies _ _ Hc), protect_empty. apply Re.append_nil_r.
Qed.

(** An element without placeholder. *)
Lemma protect_without_percent_example :
  contains_char "%" "<field name='x' attrs='{}'/>" = false /\
  protect "<field name='x' attrs='{}'/>" = "<field name='x' attrs='{}'/>".
Proof.
  split; [reflexivity|].
  exact (protect_without_percent "<field name='x' attrs='{}'/>" eq_refl).
Defined.

(** X11: a text without a single quote is left as it is by the
    unprotection step. *)
Theorem unprotect_without_quote (xml_content : string) :
  contains_char "'" xml_content = false -> unprotect xml_content = xml_content.
Proof.
  intros Hc. rewrite <- (Re.append_nil_r xml_content) at 1.
  rewrite (unprotect_copies _ _ Hc), unprotect_empty. apply Re.append_nil_r.
Qed.

(** A text without quotes. *)
Lemma unprotect_without_quote_example :
  contains_char "'" "<p>%(base.user)d</p>" = false /\
  unprotect "<p>%(base.user)d</p>" = "<p>%(base.user)d</p>".
Proof.
  split; [reflexivity|].
  exact (unprotect_without_quote "<p>%(base.user)d</p>" eq_refl).
Defined.

(** X12: the first placeholder [%(name)d] of a text, with a name of one or
    more characters of [[a-zA-Z_.]], is put between single quotes; the text
    before it is copied and the pass goes on after it. *)
Theorem protect_wraps_placeholder (pre name rest : string) :
  contains_char "%" pre = false ->
  is_name name ->
  protect (pre +:+ placeholder name rest)
  = pre +:+ String "'" (placeholder name (String "'" (protect rest))).
Proof.
  intros Hpre Hname. rewrite (protect_copies _ _ Hpre), (protect_placeholder _ _ Hname).
  reflexivity.
Qed.

(** A domain with one placeholder. *)
Lemma protect_wraps_placeholder_example :
  contains_char "%" "<field domain=[('user_id', '=', " = false /\
  is_name "base.user_root" /\
  protect "<field domain=[('user_id', '=', %(base.user_root)d)]/>"
  = "<field domain=[('user_id', '=', '%(base.user_root)d')]/>".
Proof.
  assert (is_name "base.user_root") as Hname by (split; [discriminate|reflexivity]).
  split; [reflexivity|]. split; [exact Hname|].
  exact (protect_wraps_placeholder "<field domain=[('user_id', '=', " "base.user_root" ")]/>"
           eq_refl Hname).
Defined.

Section Survival.

Lemma repr_chars_append (q : ascii) (s t : string) :
  repr_chars q (s +:+ t) = repr_chars q s +:+ repr_chars q t.
Proof.
  induction s as [|c s IH]; [reflexivity|].
  rewrite Re.append_cons. cbn [repr_chars]. rewrite IH, Re.append_assoc. reflexivity.
Qed.

Lemma repr_char_name (c : ascii) :
  name_char c = true -> repr_char "'" c = String c "".
Proof.
  destruct c as [[] [] [] [] [] [] [] []]; intros Hc; try discriminate Hc; reflexivity.
Qed.

Lemma repr_chars_name (name : string) :
  forallb name_char (list_ascii_of_string name) = true ->
  repr_chars "'" name = name.
Proof.
  induction name as [|c name IH]; [reflexivity|].
  cbn [list_ascii_of_string forallb repr_chars]. intros [Hc Hall]%andb_prop.
  rewrite (repr_char_name c Hc), (IH Hall). reflexivity.
Qed.

Lemma placeholder_has_no_quote (name : string) :
  is_name name -> contains_char "'" (placeholder name "") = false.
Proof.
  intros [_ Hall]. unfold placeholder. cbn [contains_char].
  rewrite contains_char_append, (name_has_no_quote name Hall). reflexivity.
Qed.

(** [repr] of the text of a placeholder: the text between single quotes. *)
Lemma repr_placeholder (name : string) :
  is_name name ->
  repr (PStr (placeholder name "")) = String "'" (placeholder name "'").
Proof.
  intros Hname. cbn [repr]. unfold repr_str.
  change single_quote with "'"%char.
  rewrite (placeholder_has_no_quote name Hname). cbn [andb].
  unfold placeholder. cbn [repr_chars]. rewrite repr_chars_append.
  rewrite (repr_chars_name name (proj2 Hname)).
  change (repr_char "'" "%") with "%". change (repr_char "'" "(") with "(".
  cbn [repr_chars]. change (repr_char "'" ")") with ")". change (repr_char "'" "d") with "d".
  autorewrite with string_append. reflexivity.
Qed.

End Survival.

(** X13: a placeholder that reaches the translator as the string value of
    an [=] Condition is rendered between single quotes by [repr], as
    [F == '%(name)d'], and the unprotection step gives it back bare:
    [F == %(name)d]. *)
Theorem placeholder_survives_translation (F name : string) :
  contains_char "'" F = false ->
  is_name name ->
  render_condition [PStr F; PStr "="; PStr (placeholder name "")]
  = Ok (PStr (F +:+ " == " +:+ String "'" (placeholder name "'"))) /\
  unprotect (F +:+ " == " +:+ String "'" (placeholder name "'"))
  = F +:+ " == " +:+ placeholder name "".
Proof.
  intros HF Hname. split.
  - rewrite (render_condition_triple _ _ "=" _ OPERATORS_eq).
    unfold equals_operator. cbn [isinstance_bool str].
    rewrite (repr_placeholder name Hname). reflexivity.
  - rewrite <- Re.append_assoc, unprotect_copies.
    + rewrite (unprotect_quoted _ _ Hname), unprotect_empty, Re.append_assoc. reflexivity.
    + rewrite contains_char_append, HF. reflexivity.
Qed.

(** The field [user_id] and the placeholder [%(base.user_root)d]. *)
Lemma placeholder_survives_translation_example :
  contains_char "'" "user_id" = false /\
  is_name "base.user_root" /\
  render_condition [PStr "user_id"; PStr "="; PStr "%(base.user_root)d"]
  = Ok (PStr "user_id == '%(base.user_root)d'") /\
  unprotect "user_id == '%(base.user_root)d'" = "user_id == %(base.user_root)d".
Proof.
  assert (is_name "base.user_root") as Hname by (split; [discriminate|reflexivity]).
  split; [reflexivity|]. split; [exact Hname|].
  exact (placeholder_survives_translation "user_id" "base.user_root" eq_refl Hname).
Defined.

(** ** Further properties of the file passes *)

Section TestMode.
Variable H : host.

Lemma keeps_files_write_in_test_mode (self : parser) (xml_content : string) :
  keeps_files (__write_xml true self xml_content).
Proof. intros w. reflexivity. Qed.

Lemma keeps_files_process_xml_in_test_mode (self : parser) :
  keeps_files (process_xml H true self).
Proof.
  unfold process_xml, preprocess, convert_attrs, convert_column_invisible, postprocess.
  repeat first
    [ apply keeps_files_write_in_test_mode
    | apply keeps_files_read
    | apply keeps_files_parse_root
    | apply keeps_files_lift
    | apply keeps_files_ret
    | apply keeps_files_for_each; intros
    | apply keeps_files_convert_and_update
    | apply keeps_files_bind; [|intros]
    | match goal with
      | |- keeps_files (if ?b then _ else _) => destruct b
      | |- keeps_files (match ?o with Some _ => _ | None => _ end) => destruct o
      end ].
Qed.

Lemma keeps_files_main_in_test_mode (xml_paths : list string) :
  keeps_files (main H true xml_paths).
Proof.
  unfold main. apply keeps_files_bind; [apply keeps_files_print|intros _].
  apply keeps_files_for_each. intros _ xml_path_pattern w.
  unfold process_pattern.
  apply (keeps_files_for_each (fun _ xml_path => process_path H true xml_path)).
  intros _ xml_path. unfold process_path, __init__.
  apply keeps_files_bind; [|intros; apply keeps_files_process_xml_in_test_mode].
  apply keeps_files_bind; [apply keeps_files_read|intros; apply keeps_files_ret].
Qed.

End TestMode.

(** X18: in test mode no file is changed by a batch. *)
Theorem test_mode_never_writes (H : host) (xml_paths : list string) (w : world) :
  files (main H true xml_paths w).1 = files w.
Proof. apply keeps_files_main_in_test_mode. Qed.

Section Frame.
Variable H : host.
Variable TEST_MODE : bool.

Lemma writes_only_keeps {A : Type} (path : string) (m : io A) :
  keeps_files m -> writes_only path m.
Proof. intros Hm w p _. rewrite (Hm w). reflexivity. Qed.

Lemma writes_only_write (self : parser) (xml_content : string) :
  writes_only (xml_path self) (__write_xml TEST_MODE self xml_content).
Proof.
  intros w p Hp. unfold __write_xml. destruct TEST_MODE; [reflexivity|].
  cbn [fst files]. apply lookup_insert_ne. congruence.
Qed.

Lemma writes_only_bind {A B : Type} (path : string) (m : io A) (f : A -> io B) :
  writes_only path m -> (forall a, writes_only path (f a)) -> writes_only path (m ≫= f).
Proof.
  intros Hm Hf w p Hp. rewrite bind_run. specialize (Hm w p Hp).
  destruct (m w) as [w' [a|e]]; simpl in *; [|exact Hm].
  rewrite (Hf a w' p Hp). exact Hm.
Qed.

Lemma writes_only_convert_attrs (self : parser) :
  writes_only (xml_path self) (convert_attrs H TEST_MODE self).
Proof.
  unfold convert_attrs.
  apply writes_only_bind; [apply writes_only_keeps, keeps_files_parse_root|intros root].
  apply writes_only_bind; [|intros; apply writes_only_write].
  apply writes_only_keeps, keeps_files_for_each, keeps_files_convert_and_update.
Qed.

Lemma writes_only_convert_column_invisible (self : parser) :
  writes_only (xml_path self) (convert_column_invisible H TEST_MODE self).
Proof.
  unfold convert_column_invisible.
  apply writes_only_bind; [apply writes_only_keeps, keeps_files_parse_root|intros root].
  apply writes_only_bind; [|intros; apply writes_only_write].
  apply writes_only_keeps, keeps_files_for_each. intros r el.
  repeat (apply keeps_files_bind; [apply keeps_files_lift|intros]).
  apply keeps_files_lift.
Qed.

Lemma writes_only_postprocess (self : parser) :
  writes_only (xml_path self) (postprocess TEST_MODE self).
Proof.
  unfold postprocess.
  apply writes_only_bind; [apply writes_only_keeps, keeps_files_read|intros source].
  apply writes_only_bind; [|intros; apply writes_only_write].
  apply writes_only_keeps.
  destruct (has_xml_declaration self); [|apply keeps_files_ret].
  destruct (xml_declaration_double_quote self);
    [apply keeps_files_ret|apply keeps_files_lift].
Qed.

Lemma writes_only_process_xml (self : parser) :
  writes_only (xml_path self) (process_xml H TEST_MODE self).
Proof.
  intros w p Hp. unfold process_xml. rewrite bind_run.
  unfold preprocess. rewrite bind_run. unfold __read_xml at 1.
  destruct (files w !! xml_path self) as [xml_content|]; [|reflexivity].
  rewrite bind_run.
  set (self' := Parser (xml_path self) _ _).
  pose proof (writes_only_write self' (protect xml_content) w p Hp) as Hwrite.
  destruct (__write_xml TEST_MODE self' (protect xml_content) w) as [w1 [[]|e]];
    [|exact Hwrite].
  cbn [mret io_ret]. cbn [fst] in Hwrite. rewrite <- Hwrite.
  change (xml_path self) with (xml_path self') in Hp.
  apply (writes_only_bind (xml_path self'));
    [apply writes_only_convert_attrs|intros _|exact Hp].
  apply writes_only_bind; [apply writes_only_convert_column_invisible|intros _].
  apply writes_only_postprocess.
Qed.

End Frame.

(** X17: [process_xml] changes no file but its own, in either mode and
    whether it returns or raises. *)
Theorem process_xml_writes_only_its_file
    (H : host) (TEST_MODE : bool) (self : parser) (w : world) (p : string) :
  p <> xml_path self ->
  files (process_xml H TEST_MODE self w).1 !! p = files w !! p.
Proof. intros Hp. apply writes_only_process_xml. exact Hp. Qed.

(** Processing [b.xml] leaves [a.xml] alone. *)
Lemma process_xml_writes_only_its_file_example :
  "a.xml" <> xml_path (Parser "b.xml" false None) /\
  files (process_xml demo_host false (Parser "b.xml" false None) demo_world).1 !! "a.xml"
  = Some doc_a.
Proof.
  assert ("a.xml" <> xml_path (Parser "b.xml" false None)) as Hp by discriminate.
  split; [exact Hp|].
  exact (process_xml_writes_only_its_file demo_host false (Parser "b.xml" false None)
           demo_world "a.xml" Hp).
Defined.

(** [b.xml], which has no declaration. *)
Lemma postprocess_after_preprocess_example :
  files demo_world !! xml_path (Parser "b.xml" false None) = Some doc_b /\
  startswith doc_b "<?xml" && contains doc_b xml_version_double_quoted = false /\
  (self' ← preprocess false (Parser "b.xml" false None); postprocess false self') demo_world
  = (World (files demo_world) (stdout demo_world), Ok tt).
Proof.
  split; [reflexivity|]. split; [reflexivity|].
  exact (postprocess_after_preprocess (Parser "b.xml" false None) demo_world doc_b
           eq_refl eq_refl).
Defined.

Section Slices.

Lemma slice_to_append (s t : string) : slice_to (s +:+ t) (String.length s) = s.
Proof.
  induction s as [|c s IH]; [destruct t; reflexivity|].
  rewrite Re.append_cons. cbn [String.length slice_to]. rewrite IH. reflexivity.
Qed.

Lemma slice_from_append (s t : string) : slice_from (s +:+ t) (String.length s) = t.
Proof.
  induction s as [|c s IH]; [destruct t; reflexivity|].
  rewrite Re.append_cons. cbn [String.length slice_from]. exact IH.
Qed.

End Slices.

(** X15: when the original declaration was double-quoted, [postprocess]
    turns every single quote up to the end of the first [?>] into a double
    quote and leaves the text after it as the unprotection step gave it. *)
Theorem postprocess_restores_double_quotes
    (self : parser) (w : world) (content head body : string) :
  files w !! xml_path self = Some content ->
  has_xml_declaration self = true ->
  xml_declaration_double_quote self = Some true ->
  unprotect content = head +:+ "?>" +:+ body ->
  find (unprotect content) "?>" = Z.of_nat (String.length head) ->
  postprocess false self w
  = (World (<[xml_path self := replace (head +:+ "?>") single_quote double_quote +:+ body]>
              (files w)) (stdout w), Ok tt).
Proof.
  intros Hfile Hdecl Hquote Hparts Hfind.
  unfold postprocess. rewrite bind_run. unfold __read_xml at 1. rewrite Hfile.
  rewrite Hdecl, Hquote, bind_run. cbn [mret io_ret]. unfold __write_xml.
  rewrite Hfind.
  replace (Z.to_nat (Z.of_nat (String.length head) + 2)) with (String.length (head +:+ "?>"))
    by (rewrite Re.length_append; simpl; lia).
  rewrite Hparts, <- Re.append_assoc, slice_to_append, slice_from_append. reflexivity.
Qed.

(** A declaration as [lxml] writes it, before a text with an apostrophe. *)
Lemma postprocess_restores_double_quotes_example :
  files (World (<["c.xml" := "<?xml version='1.0' encoding='utf-8'?><p>'%(a.b)d' isn't</p>"]> ∅) [])
    !! xml_path (Parser "c.xml" true (Some true))
  = Some "<?xml version='1.0' encoding='utf-8'?><p>'%(a.b)d' isn't</p>" /\
  unprotect "<?xml version='1.0' encoding='utf-8'?><p>'%(a.b)d' isn't</p>"
  = "<?xml version='1.0' encoding='utf-8'" +:+ "?>" +:+ "<p>%(a.b)d isn't</p>" /\
  find (unprotect "<?xml version='1.0' encoding='utf-8'?><p>'%(a.b)d' isn't</p>") "?>"
  = Z.of_nat (String.length "<?xml version='1.0' encoding='utf-8'") /\
  postprocess false (Parser "c.xml" true (Some true))
    (World (<["c.xml" := "<?xml version='1.0' encoding='utf-8'?><p>'%(a.b)d' isn't</p>"]> ∅) [])
  = (World (<["c.xml" :=
               replace ("<?xml version='1.0' encoding='utf-8'" +:+ "?>") single_quote double_quote
               +:+ "<p>%(a.b)d isn't</p>"]>
              (<["c.xml" := "<?xml version='1.0' encoding='utf-8'?><p>'%(a.b)d' isn't</p>"]> ∅)) [],
     Ok tt).
Proof.
  split; [reflexivity|]. split; [reflexivity|]. split; [reflexivity|].
  exact (postprocess_restores_double_quotes (Parser "c.xml" true (Some true))
           (World (<["c.xml" := "<?xml version='1.0' encoding='utf-8'?><p>'%(a.b)d' isn't</p>"]> ∅) [])
           "<?xml version='1.0' encoding='utf-8'?><p>'%(a.b)d' isn't</p>"
           "<?xml version='1.0' encoding='utf-8'" "<p>%(a.b)d isn't</p>"
           eq_refl eq_refl eq_refl eq_refl eq_refl).
Defined.

(** X16: a file in which no element matches either query is still
    rewritten: it ends as the serialisation by [lxml] of the tree parsed
    twice, with the placeholders unprotected and, when the original text
    starts with a double-quoted declaration, with the single quotes up to
    the end of the first [?>] turned into double quotes. *)
Theorem process_xml_without_matches
    (H : host) (self : parser) (w : world) (content : string) (root root' : etree H) :
  let declared := startswith content "<?xml" in
  let unprotected := unprotect (tostring H root' declared) in
  let cut := Z.to_nat (find unprotected "?>" + 2) in
  files w !! xml_path self = Some content ->
  etree_parse H (protect content) = Ok root ->
  xpath H root "//*[@attrs] | //attribute[@name='attrs']" = [] ->
  etree_parse H (tostring H root declared) = Ok root' ->
  xpath H root' "//tree//field[@invisible]" = [] ->
  process_xml H false self w
  = (World (<[xml_path self :=
               if declared && contains content xml_version_double_quoted
               then replace (slice_to unprotected cut) single_quote double_quote
                    +:+ slice_from unprotected cut
               else unprotected]> (files w)) (stdout w),
     Ok tt).
Proof.
  intros declared unprotected cut Hfile Hparse Hnone Hparse' Hnone'.
  unfold process_xml. rewrite bind_run, (preprocess_writes_protected _ _ _ Hfile).
  fold declared. set (self' := Parser (xml_path self) declared _).
  rewrite bind_run. unfold convert_attrs. rewrite bind_run.
  unfold parse_root at 1. cbn [files xml_path self']. rewrite lookup_insert_eq, Hparse.
  rewrite Hnone, bind_run. cbn [for_each mret io_ret]. unfold __write_xml at 1.
  cbn [files stdout xml_path has_xml_declaration self']. rewrite insert_insert_eq.
  rewrite bind_run. unfold convert_column_invisible. rewrite bind_run.
  unfold parse_root at 1. cbn [files xml_path self']. rewrite lookup_insert_eq, Hparse'.
  rewrite Hnone', bind_run. cbn [for_each mret io_ret]. unfold __write_xml at 1.
  cbn [files stdout xml_path has_xml_declaration self']. rewrite insert_insert_eq.
  unfold postprocess. rewrite bind_run. unfold __read_xml at 1.
  cbn [files xml_path has_xml_declaration xml_declaration_double_quote self'].
  rewrite lookup_insert_eq, bind_run. fold unprotected.
  assert ((if declared
           then mret (contains content xml_version_double_quoted)
           else mret false)
          = (mret (declared && contains content xml_version_double_quoted) : io bool)) as ->
    by (destruct declared; reflexivity).
  cbn [mret io_ret]. unfold __write_xml. cbn [files stdout xml_path self'].
  rewrite insert_insert_eq. fold cut. reflexivity.
Qed.

(** [c.xml], in which nothing matches: the declaration comes back in double
    quotes and the placeholder bare. *)
Lemma process_xml_without_matches_example :
  files (World (<["c.xml" := doc_c]> ∅) []) !! "c.xml" = Some doc_c /\
  process_xml declared_host false (Parser "c.xml" false None) (World (<["c.xml" := doc_c]> ∅) [])
  = (World (<["c.xml" :=
               replace "<?xml version='1.0' encoding='utf-8'?>" single_quote double_quote
               +:+ String "010" ("<p>%(a.b)d</p>" +:+ String "010" "")]>
              (<["c.xml" := doc_c]> ∅)) [],
     Ok tt).
Proof.
  split; [reflexivity|].
  exact (process_xml_without_matches declared_host (Parser "c.xml" false None)
           (World (<["c.xml" := doc_c]> ∅) []) doc_c tt tt
           eq_refl eq_refl eq_refl eq_refl eq_refl).
Defined.

